(** * Project-SSF-DCF: coding-plan catalogs and the initial-contacts exporter

  A shallow embedding of [configuration/coding_plans.py] and of the main
  body of [export_initial_contacts.py], with the properties the project's
  specification states about them.

  Python dictionaries and sets are stdpp's [gmap] and [gset]; a statement
  that can raise is a computation in the [result] monad below. *)

From Stdlib Require Import ZArith Ascii String DecimalString DecimalPos DecimalZ Sorted.
From stdpp Require Import gmap strings list fin_maps fin_sets.

Local Open Scope string_scope.

(** ** Exceptions *)

Inductive exn : Type :=
| AssertionError
| KeyError (key : string)
| MissingMatchValue (match_value : string)
| LookupFailure.

Inductive result (A : Type) : Type :=
| Ok (a : A)
| Raise (e : exn).
Arguments Ok {A} a.
Arguments Raise {A} e.

#[global] Instance result_ret : MRet result := λ A a, Ok a.
#[global] Instance result_bind : MBind result := λ A B f r,
  match r with
  | Ok a => f a
  | Raise e => Raise e
  end.

(** [assert cond] *)
Definition py_assert (P : Prop) `{!Decision P} : result unit :=
  if decide P then Ok tt else Raise AssertionError.

(** [d[key]] on a dictionary. *)
Definition getitem {V : Type} (d : gmap string V) (key : string) : result V :=
  match d !! key with
  | Some v => Ok v
  | None => Raise (KeyError key)
  end.

(** ** Python string operations used by the catalog *)

Module PyStr.

(** Is [p] a prefix of [s]? *)
Fixpoint startswith (p s : string) : bool :=
  match p, s with
  | EmptyString, _ => true
  | String a p', String b s' => if decide (a = b) then startswith p' s' else false
  | String _ _, EmptyString => false
  end.

(** Scan of [s] for [s.replace(old, new)] with [old] non-empty: [skip]
    counts the characters of a matched occurrence still to be dropped. *)
Fixpoint replace_from (old new : string) (skip : nat) (s : string) : string :=
  match s with
  | EmptyString => EmptyString
  | String c s' =>
      match skip with
      | S k => replace_from old new k s'
      | O =>
          if startswith old s
          then new +:+ replace_from old new (String.length old - 1) s'
          else String c (replace_from old new 0 s')
      end
  end.

(** With an empty [old], Python puts [new] before every character and at
    the end. *)
Fixpoint intersperse_all (new s : string) : string :=
  match s with
  | EmptyString => new
  | String c s' => new +:+ String c (intersperse_all new s')
  end.

(** [s.replace(old, new)]: every non-overlapping occurrence, left to right. *)
Definition replace (s old new : string) : string :=
  match old with
  | EmptyString => intersperse_all new s
  | String _ _ => replace_from old new 0 s
  end.

Definition lower_ascii (c : ascii) : ascii :=
  let n := nat_of_ascii c in
  if (65 <=? n)%nat && (n <=? 90)%nat then ascii_of_nat (n + 32) else c.

(** [s.lower()], on the ASCII letters the catalog's file names are made of. *)
Fixpoint lower (s : string) : string :=
  match s with
  | EmptyString => EmptyString
  | String c s' => String (lower_ascii c) (lower s')
  end.

(** [str(n)] for an [int]. *)
Definition str (n : Z) : string := NilZero.string_of_int (Z.to_int n).

(** [s] without the prefix [p], when it has it. *)
Fixpoint remove_prefix (p s : string) : option string :=
  match p, s with
  | EmptyString, _ => Some s
  | String a p', String b s' => if decide (a = b) then remove_prefix p' s' else None
  | String _ _, EmptyString => None
  end.

End PyStr.

(** ** Constants of [core_data_modules.cleaners] *)

Module Codes.
Definition NOT_CODED : string := "NC".
Definition STOP : string := "STOP".
End Codes.

Module SomaliaCodes.
Definition GALMUDUG : string := "galmudug".
Definition SOUTH_WEST_STATE : string := "south west state".
End SomaliaCodes.

(** ** The libraries the catalog calls *)

(** What a cleaner of [core_data_modules] may return: [clean_age] gives an
    [int], or the string [Codes.NOT_CODED]. *)
Inductive py_value : Type :=
  | PyInt (n : Z)
  | PyStr (s : string).

(** Modelled from the spec: the registry [configuration.code_schemes.CodeSchemes]
    is defined outside the two files embedded here; a scheme is referred to
    by its name. *)
Inductive CodeSchemes : Type :=
  | S01E01 | S01E02 | S01E03 | S01E04
  | SLD_S01E01 | SLD_S01E02 | SLD_S01E03 | SLD_S01E04 | SLD_S01E05
  | SLD_S01_CLOSEOUT
  | GENDER | AGE | AGE_CATEGORY | RECENTLY_DISPLACED | HOUSEHOLD_LANGUAGE
  | MOGADISHU_SUB_DISTRICT | SOMALIA_DISTRICT | SOMALIA_REGION
  | SOMALIA_STATE | SOMALIA_ZONE
  | WS_CORRECT_DATASET_SCHEME.

(** Modelled from the spec: [configuration.code_imputation_functions] is
    defined outside the two files embedded here; a hook is referred to by
    its name. *)
Inductive code_imputation_functions : Type :=
  | impute_age_category
  | impute_somalia_location_codes.

(** The four strategies of [FoldStrategies]; [list_of_labels] is closed over
    the scheme it merges labels of. *)
Inductive FoldStrategies : Type :=
  | assert_equal
  | assert_label_ids_equal
  | concatenate
  | list_of_labels (code_scheme : CodeSchemes).

(** The functions of [core_data_modules] the catalog calls. A lookup of a
    match value a scheme does not have raises; here it gives [None]. *)
Class CoreDataModules : Type := {
  Code : Type;
  get_code_with_match_value : CodeSchemes → string → option Code;
  swahili_clean_age : string → py_value;
  somali_clean_gender : string → string;
  somali_clean_yes_no : string → string;
  somali_clean_mogadishu_sub_district : string → string;
  somali_clean_somalia_district : string → string
}.

(** ** [src.lib.configuration_objects] *)

Inductive CodingModes : Type := SINGLE | MULTIPLE.

(** Modelled from the spec: the class [CodingConfiguration] of
    [src.lib.configuration_objects] is defined outside the two files
    embedded here; the fields are those the catalog passes,
    [include_in_theme_distribution] being true when it is left out. *)
Record CodingConfiguration : Type := {
  coding_mode : CodingModes;
  code_scheme : CodeSchemes;
  cleaner : option (string → string);
  coded_field : string;
  analysis_file_key : string;
  fold_strategy : FoldStrategies;
  include_in_theme_distribution : bool
}.

(** Modelled from the spec: the class [CodingPlan] of
    [src.lib.configuration_objects] is defined outside the two files
    embedded here; a field the catalog leaves out is [None]. *)
Record CodingPlan `{CoreDataModules} : Type := {
  dataset_name : option string;
  raw_field : string;
  time_field : string;
  run_id_field : option string;
  coda_filename : string;
  icr_filename : option string;
  coding_configurations : list CodingConfiguration;
  code_imputation_function : option code_imputation_functions;
  ws_code : Code;
  raw_field_fold_strategy : FoldStrategies
}.

(** ** [configuration/coding_plans.py] *)

Section coding_plans.
Context `{CoreDataModules}.

(** [CodeSchemes.WS_CORRECT_DATASET_SCHEME.get_code_with_match_value(v)] *)
Definition ws_correct_dataset_code (match_value : string) : result Code :=
  match get_code_with_match_value WS_CORRECT_DATASET_SCHEME match_value with
  | Some code => Ok code
  | None => Raise (MissingMatchValue match_value)
  end.

Definition clean_age_with_range_filter (text : string) : string :=
  let age := swahili_clean_age text in
  match age with
  | PyInt n => if decide (10 ≤ n ∧ n < 100)%Z then PyStr.str n else Codes.NOT_CODED
  | PyStr _ => Codes.NOT_CODED
  end.

Definition clean_district_if_no_mogadishu_sub_district (text : string) : string :=
  let mogadishu_sub_district := somali_clean_mogadishu_sub_district text in
  if decide (mogadishu_sub_district = Codes.NOT_CODED)
  then somali_clean_somalia_district text
  else Codes.NOT_CODED.

Definition make_rqa_coding_plan (episode_name : string) (code_scheme : CodeSchemes)
    (ws_match_value coda_filename : string) : result CodingPlan :=
  ws ← ws_correct_dataset_code ws_match_value;
  mret {|
    dataset_name := Some (PyStr.replace episode_name "rqa_" "");
    raw_field := episode_name +:+ "_raw";
    time_field := "sent_on";
    run_id_field := Some (episode_name +:+ "_run_id");
    coda_filename := coda_filename +:+ ".json";
    icr_filename := Some (PyStr.lower coda_filename +:+ ".csv");
    coding_configurations := [
      {| coding_mode := MULTIPLE;
         code_scheme := code_scheme;
         cleaner := None;
         coded_field := episode_name +:+ "_coded";
         analysis_file_key := episode_name;
         fold_strategy := list_of_labels code_scheme;
         include_in_theme_distribution := true |} ];
    code_imputation_function := None;
    ws_code := ws;
    raw_field_fold_strategy := concatenate
  |}.

Definition get_rqa_coding_plans (pipeline_name : string) : result (list CodingPlan) :=
  if decide (pipeline_name = "SSF-DCF") then
    p1 ← make_rqa_coding_plan "rqa_dcf_s01e01" S01E01 "ssf dcf s01e01" "SSF_DCF_s01e01";
    p2 ← make_rqa_coding_plan "rqa_dcf_s01e02" S01E02 "ssf dcf s01e02" "SSF_DCF_s01e02";
    p3 ← make_rqa_coding_plan "rqa_dcf_s01e03" S01E03 "ssf dcf s01e03" "SSF_DCF_s01e03";
    p4 ← make_rqa_coding_plan "rqa_dcf_s01e04" S01E04 "ssf dcf s01e04" "SSF_DCF_s01e04";
    mret [p1; p2; p3; p4]
  else
    _ ← py_assert (pipeline_name = "SSF-SLD");
    p1 ← make_rqa_coding_plan "rqa_sld_s01e01" SLD_S01E01 "ssf sld s01e01" "SSF_SLD_s01e01";
    p2 ← make_rqa_coding_plan "rqa_sld_s01e02" SLD_S01E02 "ssf sld s01e02" "SSF_SLD_s01e02";
    p3 ← make_rqa_coding_plan "rqa_sld_s01e03" SLD_S01E03 "ssf sld s01e03" "SSF_SLD_s01e03";
    p4 ← make_rqa_coding_plan "rqa_sld_s01e04" SLD_S01E04 "ssf sld s01e04" "SSF_SLD_s01e04";
    p5 ← make_rqa_coding_plan "rqa_sld_s01e05" SLD_S01E05 "ssf sld s01e05" "SSF_SLD_s01e05";
    p6 ← make_rqa_coding_plan "rqa_sld_s01_closeout" SLD_S01_CLOSEOUT
           "ssf sld s01 closeout" "SSF_SLD_s01_closeout";
    mret [p1; p2; p3; p4; p5; p6].

Definition get_demog_coding_plans (pipeline_name : string) : result (list CodingPlan) :=
  ws_gender ← ws_correct_dataset_code "gender";
  let gender := {|
    dataset_name := None;
    raw_field := "gender_raw";
    time_field := "gender_time";
    run_id_field := None;
    coda_filename := "IMAQAL_gender.json";
    icr_filename := None;
    coding_configurations := [
      {| coding_mode := SINGLE;
         code_scheme := GENDER;
         cleaner := Some somali_clean_gender;
         coded_field := "gender_coded";
         analysis_file_key := "gender";
         fold_strategy := assert_label_ids_equal;
         include_in_theme_distribution := true |} ];
    code_imputation_function := None;
    ws_code := ws_gender;
    raw_field_fold_strategy := assert_equal |} in
  ws_age ← ws_correct_dataset_code "age";
  let age := {|
    dataset_name := None;
    raw_field := "age_raw";
    time_field := "age_time";
    run_id_field := None;
    coda_filename := "IMAQAL_age.json";
    icr_filename := None;
    coding_configurations := [
      {| coding_mode := SINGLE;
         code_scheme := AGE;
         cleaner := Some (λ text, clean_age_with_range_filter text);
         coded_field := "age_coded";
         analysis_file_key := "age";
         fold_strategy := assert_label_ids_equal;
         include_in_theme_distribution := false |};
      {| coding_mode := SINGLE;
         code_scheme := AGE_CATEGORY;
         cleaner := None;
         coded_field := "age_category_coded";
         analysis_file_key := "age_category";
         fold_strategy := assert_label_ids_equal;
         include_in_theme_distribution := true |} ];
    code_imputation_function := Some impute_age_category;
    ws_code := ws_age;
    raw_field_fold_strategy := assert_equal |} in
  ws_recently_displaced ← ws_correct_dataset_code "recently displaced";
  let recently_displaced := {|
    dataset_name := None;
    raw_field := "recently_displaced_raw";
    time_field := "recently_displaced_time";
    run_id_field := None;
    coda_filename := "IMAQAL_recently_displaced.json";
    icr_filename := None;
    coding_configurations := [
      {| coding_mode := SINGLE;
         code_scheme := RECENTLY_DISPLACED;
         cleaner := Some somali_clean_yes_no;
         coded_field := "recently_displaced_coded";
         analysis_file_key := "recently_displaced";
         fold_strategy := assert_label_ids_equal;
         include_in_theme_distribution := true |} ];
    code_imputation_function := None;
    ws_code := ws_recently_displaced;
    raw_field_fold_strategy := assert_equal |} in
  ws_household_language ← ws_correct_dataset_code "hh language";
  let household_language := {|
    dataset_name := None;
    raw_field := "household_language_raw";
    time_field := "household_language_time";
    run_id_field := None;
    coda_filename := "IMAQAL_household_language.json";
    icr_filename := None;
    coding_configurations := [
      {| coding_mode := SINGLE;
         code_scheme := HOUSEHOLD_LANGUAGE;
         cleaner := None;
         coded_field := "household_language_coded";
         analysis_file_key := "household_language";
         fold_strategy := assert_label_ids_equal;
         include_in_theme_distribution := true |} ];
    code_imputation_function := None;
    ws_code := ws_household_language;
    raw_field_fold_strategy := assert_equal |} in
  ws_location ← ws_correct_dataset_code "location";
  let location := {|
    dataset_name := None;
    raw_field := "location_raw";
    time_field := "location_time";
    run_id_field := None;
    coda_filename := "IMAQAL_location.json";
    icr_filename := None;
    coding_configurations := [
      {| coding_mode := SINGLE;
         code_scheme := MOGADISHU_SUB_DISTRICT;
         cleaner := Some somali_clean_mogadishu_sub_district;
         coded_field := "mogadishu_sub_district_coded";
         analysis_file_key := "mogadishu_sub_district";
         fold_strategy := assert_label_ids_equal;
         include_in_theme_distribution := false |};
      {| coding_mode := SINGLE;
         code_scheme := SOMALIA_DISTRICT;
         cleaner := Some (λ text, clean_district_if_no_mogadishu_sub_district text);
         coded_field := "district_coded";
         analysis_file_key := "district";
         fold_strategy := assert_label_ids_equal;
         include_in_theme_distribution := false |};
      {| coding_mode := SINGLE;
         code_scheme := SOMALIA_REGION;
         cleaner := None;
         coded_field := "region_coded";
         analysis_file_key := "region";
         fold_strategy := assert_label_ids_equal;
         include_in_theme_distribution := true |};
      {| coding_mode := SINGLE;
         code_scheme := SOMALIA_STATE;
         cleaner := None;
         coded_field := "state_coded";
         analysis_file_key := "state";
         fold_strategy := assert_label_ids_equal;
         include_in_theme_distribution := true |};
      {| coding_mode := SINGLE;
         code_scheme := SOMALIA_ZONE;
         cleaner := None;
         coded_field := "zone_coded";
         analysis_file_key := "zone";
         fold_strategy := assert_label_ids_equal;
         include_in_theme_distribution := false |} ];
    code_imputation_function := Some impute_somalia_location_codes;
    ws_code := ws_location;
    raw_field_fold_strategy := assert_equal |} in
  mret [gender; age; recently_displaced; household_language; location].

Definition get_follow_up_coding_plans (pipeline_name : string) : list CodingPlan := [].

Definition get_engagement_coding_plans (pipeline_name : string) : list CodingPlan := [].

Definition get_ws_correct_dataset_scheme (pipeline_name : string) : CodeSchemes :=
  WS_CORRECT_DATASET_SCHEME.

(** The WS scheme has a code for [match_value]. *)
Definition resolves (match_value : string) : Prop :=
  is_Some (get_code_with_match_value WS_CORRECT_DATASET_SCHEME match_value).

(** The names and keys of a plan's configurations, in order. *)
Definition coded_fields (plan : CodingPlan) : list string :=
  coded_field <$> coding_configurations plan.

Definition analysis_file_keys (plan : CodingPlan) : list string :=
  analysis_file_key <$> coding_configurations plan.

(** The uniqueness invariant of a plan's configurations. *)
Definition unique_fields (plan : CodingPlan) : Prop :=
  NoDup (coded_fields plan) ∧ NoDup (analysis_file_keys plan).

(** The episodes each variant of the RQA catalog declares. *)
Definition declared_episodes (pipeline_name : string) : list string :=
  if decide (pipeline_name = "SSF-DCF") then
    [ "rqa_dcf_s01e01"; "rqa_dcf_s01e02"; "rqa_dcf_s01e03"; "rqa_dcf_s01e04" ]
  else if decide (pipeline_name = "SSF-SLD") then
    [ "rqa_sld_s01e01"; "rqa_sld_s01e02"; "rqa_sld_s01e03"; "rqa_sld_s01e04";
      "rqa_sld_s01e05"; "rqa_sld_s01_closeout" ]
  else [].

(** The match values the plans of a variant look up in the WS scheme. *)
Definition rqa_match_values (pipeline_name : string) : list string :=
  if decide (pipeline_name = "SSF-DCF") then
    [ "ssf dcf s01e01"; "ssf dcf s01e02"; "ssf dcf s01e03"; "ssf dcf s01e04" ]
  else if decide (pipeline_name = "SSF-SLD") then
    [ "ssf sld s01e01"; "ssf sld s01e02"; "ssf sld s01e03"; "ssf sld s01e04";
      "ssf sld s01e05"; "ssf sld s01 closeout" ]
  else [].

Definition demog_match_values : list string :=
  [ "gender"; "age"; "recently displaced"; "hh language"; "location" ].

(** A plan of the RQA catalog made for [episode]. *)
Definition plan_of_episode (plan : CodingPlan) (episode : string) : Prop :=
  analysis_file_keys plan = [episode]
  ∧ raw_field plan = episode +:+ "_raw"
  ∧ dataset_name plan = PyStr.remove_prefix "rqa_" episode.

(** Is a cleaned value a code, that is, not [NOT_CODED]? *)
Definition coded (value : string) : bool :=
  bool_decide (value ≠ Codes.NOT_CODED).

(** Exactly one of the sub-district and the district of [text] is a code. *)
Definition exactly_one_coded (text : string) : bool :=
  xorb (coded (somali_clean_mogadishu_sub_district text))
       (coded (clean_district_if_no_mogadishu_sub_district text)).

End coding_plans.

(** ** [export_initial_contacts.py] *)

Module Exporter.

Definition TARGET_LOCATIONS : gset string :=
  {[ SomaliaCodes.GALMUDUG; SomaliaCodes.SOUTH_WEST_STATE ]}.

(** A row of [csv.DictReader]: a dictionary from the column names of the
    header to the cells of the row, each a string. *)
Abbreviation Row := (gmap string string).

(** [{location: 0 for location in TARGET_LOCATIONS}] *)
Definition zero_counts : gmap string nat := gset_to_gmap 0 TARGET_LOCATIONS.

(** The variables that live across the files: [uuids], [location_counts]. *)
Record running : Type := {
  uuids : gset string;
  location_counts : gmap string nat
}.

(** The variables set afresh for each file: [file_uuids],
    [file_location_counts]. *)
Record per_file : Type := {
  file_uuids : gset string;
  file_location_counts : gmap string nat
}.

(** [counts[location] += 1] *)
Definition increment (counts : gmap string nat) (location : string)
    : result (gmap string nat) :=
  c ← getitem counts location;
  mret (<[location := c + 1]> counts).

(** The body of [for row in data]. *)
Definition search_row (st : running * per_file) (row : Row) : result (running * per_file) :=
  let '(tot, cur) := st in
  state ← getitem row "state";
  if decide (state = Codes.STOP) then mret (tot, cur)
  else
    location ← getitem row "state";
    if decide (location ∈ TARGET_LOCATIONS) then
      if decide ("uid" ∉ dom row) then mret (tot, cur)
      else
        uid ← getitem row "uid";
        cur' ← (if decide (uid ∉ file_uuids cur) then
                  counts ← increment (file_location_counts cur) location;
                  uid ← getitem row "uid";
                  mret {| file_uuids := {[ uid ]} ∪ file_uuids cur;
                          file_location_counts := counts |}
                else mret cur);
        uid ← getitem row "uid";
        tot' ← (if decide (uid ∉ uuids tot) then
                  counts ← increment (location_counts tot) location;
                  uid ← getitem row "uid";
                  mret {| uuids := {[ uid ]} ∪ uuids tot;
                          location_counts := counts |}
                else mret tot);
        mret (tot', cur')
    else mret (tot, cur).

(** A [for] loop whose body may raise. *)
Fixpoint for_each {A S : Type} (body : S → A → result S) (st : S) (l : list A) : result S :=
  match l with
  | [] => Ok st
  | x :: l' => st' ← body st x; for_each body st' l'
  end.

Definition new_file : per_file :=
  {| file_uuids := ∅; file_location_counts := zero_counts |}.

(** The rows of one file, from the running totals so far. *)
Definition search_data (tot : running) (data : list Row) : result (running * per_file) :=
  for_each search_row (tot, new_file) data.

(** What the two [log.info] lines after a file report. *)
Record file_report : Type := {
  found : nat;
  per_location : gmap string nat;
  running_total : nat;
  running_per_location : gmap string nat
}.

Definition report (st : running * per_file) : file_report :=
  {| found := size (file_uuids st.2);
     per_location := file_location_counts st.2;
     running_total := size (uuids st.1);
     running_per_location := location_counts st.1 |}.

(** The body of [for path in csv_input_file_path], on the file's rows. *)
Definition search_file (acc : running * list file_report) (data : list Row)
    : result (running * list file_report) :=
  st ← search_data acc.1 data;
  mret (st.1, (acc.2 ++ [report st])%list).

Definition start : running := {| uuids := ∅; location_counts := zero_counts |}.

Definition search_files (files : list (list Row)) : result (running * list file_report) :=
  for_each search_file (start, []) files.

(** The identity table: [uuid_to_data_batch] gives the dictionary of the
    uuids it knows, or fails. *)
Record FirestoreUuidTable : Type := {
  uuid_to_data_batch : gset string → result (gmap string string)
}.

(** The body of [for uuid in uuids]. *)
Definition convert_uuid (uuid_phone_number_lut : gmap string string) (uuid : string)
    (acc : gset string * gset string) : gset string * gset string :=
  let '(phone_numbers, skipped_uuids) := acc in
  match uuid_phone_number_lut !! uuid with
  | Some data => ({[ "+" +:+ data ]} ∪ phone_numbers, skipped_uuids)
  | None => (phone_numbers, {[ uuid ]} ∪ skipped_uuids)
  end.

Definition convert_uuids (uuid_phone_number_lut : gmap string string) (uuids : gset string)
    : gset string * gset string :=
  set_fold (convert_uuid uuid_phone_number_lut) (∅, ∅) uuids.

Definition fieldnames : list string := ["URN:Tel"; "Name"].

(** [csv.DictWriter.writerow]: the cells of a row, a missing field empty. *)
Definition writerow (row : gmap string string) : list string :=
  (λ field, default "" (row !! field)) <$> fieldnames.

(** The contacts file: the header, then a row for each phone number. The
    rows are listed as [elements] gives them; the order in which Python
    goes through the set is not fixed by the set, so what is stated of the
    file is stated of its rows in whatever order. *)
Definition write_contacts (phone_numbers : gset string) : list (list string) :=
  fieldnames :: ((λ n, writerow {[ "URN:Tel" := n ]}) <$> elements phone_numbers).

Record export : Type := {
  reports : list file_report;
  converted : gset string;
  skipped : gset string;
  contacts : list (list string)
}.

(** The script, from the rows of the input files to what it logs and writes. *)
Definition main (phone_number_uuid_table : FirestoreUuidTable) (files : list (list Row))
    : result export :=
  '(tot, logged) ← search_files files;
  uuid_phone_number_lut ← uuid_to_data_batch phone_number_uuid_table (uuids tot);
  let '(phone_numbers, skipped_uuids) := convert_uuids uuid_phone_number_lut (uuids tot) in
  mret {| reports := logged;
          converted := phone_numbers;
          skipped := skipped_uuids;
          contacts := write_contacts phone_numbers |}.

(** The sum of a dictionary of counters. *)
Definition total (counts : gmap string nat) : nat :=
  map_fold (λ _ c acc, c + acc) 0 counts.

(** The counters agree with a set of uuids: there is a counter for each
    target location, and they add up to the size of the set. *)
Definition counted (seen : gset string) (counts : gmap string nat) : Prop :=
  dom counts = TARGET_LOCATIONS ∧ total counts = size seen.

(** The invariant of the search: both pairs of a set and its counters agree. *)
Definition search_invariant (st : running * per_file) : Prop :=
  counted (uuids st.1) (location_counts st.1)
  ∧ counted (file_uuids st.2) (file_location_counts st.2).

(** In a report, the counters shown add up to the numbers of contacts shown. *)
Definition report_adds_up (r : file_report) : Prop :=
  total (per_location r) = found r
  ∧ total (running_per_location r) = running_total r.

(** The rows of the contacts file below the header. *)
Definition phone_number_rows (out : export) : list (list string) :=
  tail (contacts out).

End Exporter.

(** ** Stand-ins for the libraries

    Small instances of the library interfaces, on which the catalog and the
    exporter run on concrete inputs. *)

Module Sample.

(** A cleaner that knows the words of a table. *)
Definition keyword_cleaner (table : list (string * string)) (text : string) : string :=
  match list_find (λ entry, entry.1 = text) table with
  | Some (_, (_, code)) => code
  | None => Codes.NOT_CODED
  end.

(** An age cleaner that reads a number written in digits. *)
Definition digits_clean_age (text : string) : py_value :=
  match NilZero.uint_of_string text with
  | Some d => PyInt (Z.of_uint d)
  | None => PyStr Codes.NOT_CODED
  end.

Definition match_values : list string :=
  [ "ssf dcf s01e01"; "ssf dcf s01e02"; "ssf dcf s01e03"; "ssf dcf s01e04";
    "ssf sld s01e01"; "ssf sld s01e02"; "ssf sld s01e03"; "ssf sld s01e04";
    "ssf sld s01e05"; "ssf sld s01 closeout";
    "gender"; "age"; "recently displaced"; "hh language"; "location" ].

(** A registry whose WS scheme has a code for each of [match_values]. *)
Definition library : CoreDataModules := {|
  Code := string;
  get_code_with_match_value := λ _ match_value,
    if decide (match_value ∈ match_values) then Some ("ws " +:+ match_value) else None;
  swahili_clean_age := digits_clean_age;
  somali_clean_gender := keyword_cleaner [("nin", "male"); ("naag", "female")];
  somali_clean_yes_no := keyword_cleaner [("haa", "yes"); ("maya", "no")];
  somali_clean_mogadishu_sub_district := keyword_cleaner [("hodan", "hodan")];
  somali_clean_somalia_district := keyword_cleaner [("baidoa", "baidoa")]
|}.

(** An identity table that knows the uuids of a dictionary. *)
Definition table (known : gmap string string) : Exporter.FirestoreUuidTable :=
  {| Exporter.uuid_to_data_batch := λ uuids,
       Ok (filter (λ entry, entry.1 ∈ uuids) known) |}.

Definition galmudug_row : gmap string string :=
  {[ "uid" := "avf-phone-uuid-1"; "state" := "galmudug" ]}.

Definition south_west_row : gmap string string :=
  {[ "uid" := "avf-phone-uuid-1"; "state" := "south west state" ]}.

Definition no_uid_row : gmap string string :=
  {[ "state" := "galmudug"; "gender" := "male" ]}.

Definition other_row : gmap string string :=
  {[ "uid" := "avf-phone-uuid-2"; "state" := "south west state" ]}.

(** The running totals after [galmudug_row] and [other_row]. *)
Definition two_contacts : Exporter.running :=
  {| Exporter.uuids := {[ "avf-phone-uuid-1"; "avf-phone-uuid-2" ]};
     Exporter.location_counts :=
       {[ "galmudug" := 1; "south west state" := 1 ]} |}.

End Sample.


(** A registry whose WS scheme misses the match values of the third DCF
    episode and of the age plan. *)
Module SampleGaps.

Definition match_values : list string :=
  filter (λ v, v ≠ "ssf dcf s01e03" ∧ v ≠ "age") Sample.match_values.

Definition library : CoreDataModules := {|
  Code := string;
  get_code_with_match_value := λ _ match_value,
    if decide (match_value ∈ match_values) then Some ("ws " +:+ match_value) else None;
  swahili_clean_age := Sample.digits_clean_age;
  somali_clean_gender := @somali_clean_gender Sample.library;
  somali_clean_yes_no := @somali_clean_yes_no Sample.library;
  somali_clean_mogadishu_sub_district :=
    @somali_clean_mogadishu_sub_district Sample.library;
  somali_clean_somalia_district := @somali_clean_somalia_district Sample.library
|}.

End SampleGaps.

(** A run of the exporter: two contacts in the first file, one of them
    again in the second, with a row without [uid]; the identity table knows
    the second uuid only. *)
Module SampleRun.

Definition files : list (list (gmap string string)) :=
  [[Sample.galmudug_row; Sample.other_row]; [Sample.south_west_row; Sample.no_uid_row]].

Definition shuffled : list (list (gmap string string)) :=
  [[Sample.no_uid_row; Sample.south_west_row; Sample.other_row]; [Sample.galmudug_row]].

Definition known : gmap string string := {[ "avf-phone-uuid-2" := "252615000002" ]}.

Definition lut : gmap string string :=
  filter (λ entry, entry.1 ∈ Exporter.uuids Sample.two_contacts) known.

End SampleRun.

(** ** Vocabulary for the catalogs *)

(** Does [old] occur in [s]? *)
Fixpoint contains (old s : string) : bool :=
  PyStr.startswith old s
  || match s with
     | EmptyString => false
     | String _ s' => contains old s'
     end.

(** The integer a decimal numeral stands for. *)
Definition parse_decimal (s : string) : option Z :=
  Z.of_int <$> NilZero.int_of_string s.

(** The fold strategy of a configuration goes with its mode: a [MULTIPLE]
    field merges the labels of its own scheme, a [SINGLE] field asserts
    that the labels agree. *)
Definition fold_strategy_fits (c : CodingConfiguration) : Prop :=
  match coding_mode c with
  | MULTIPLE => fold_strategy c = list_of_labels (code_scheme c)
  | SINGLE => fold_strategy c = assert_label_ids_equal
  end.

Section catalog_reference.
Context `{CoreDataModules}.

#[global] Instance resolves_dec (match_value : string) : Decision (resolves match_value).
Proof. unfold resolves. apply _. Defined.

(** The first match value of a list the WS scheme has no code for. *)
Definition first_unresolved (match_values : list string) : option string :=
  head (filter (λ v, ¬ resolves v) match_values).

(** The plan carries the code the WS scheme has for [match_value]. *)
Definition ws_code_of (plan : CodingPlan) (match_value : string) : Prop :=
  get_code_with_match_value WS_CORRECT_DATASET_SCHEME match_value = Some (ws_code plan).

End catalog_reference.

(** ** What the search computes

    The rows the search counts, and the contacts they give, as lists: the
    reference the loops of the exporter are compared with. *)

Section search_reference.
Import Exporter.

(** The uuid and the location a row brings to the search: those of a row in
    a target location (which is not [STOP]) that has a [uid] column. *)
Definition contact_of (row : gmap string string) : option (string * string) :=
  match row !! "state", row !! "uid" with
  | Some location, Some uid =>
      if decide (location ≠ Codes.STOP ∧ location ∈ TARGET_LOCATIONS)
      then Some (uid, location) else None
  | _, _ => None
  end.

Definition contacts_of (rows : list (gmap string string)) : list (string * string) :=
  omap contact_of rows.

(** The uuids of a list of contacts. *)
Definition uids_of (found : list (string * string)) : gset string :=
  list_to_set (found.*1).

(** The contacts whose uuid is met for the first time, [seen] holding the
    uuids met before. *)
Fixpoint first_occurrences (seen : gset string) (found : list (string * string))
    : list (string * string) :=
  match found with
  | [] => []
  | (uid, location) :: found' =>
      if decide (uid ∈ seen) then first_occurrences seen found'
      else (uid, location) :: first_occurrences ({[ uid ]} ∪ seen) found'
  end.

(** How many contacts of a list are at [location]. *)
Definition count_at (location : string) (found : list (string * string)) : nat :=
  length (filter (λ contact, contact.2 = location) found).

(** The location of the first contact of [uid] in a list of contacts. *)
Fixpoint first_location (found : list (string * string)) (uid : string)
    : option string :=
  match found with
  | [] => None
  | (uid', location) :: found' =>
      if decide (uid' = uid) then Some location else first_location found' uid
  end.

(** The uuids of a list of contacts whose first contact is at [location]. *)
Definition first_at (found : list (string * string)) (location : string)
    : gset string :=
  filter (λ uid, first_location found uid = Some location) (uids_of found).

(** A row has the [state] column. *)
Definition has_state (row : gmap string string) : Prop :=
  is_Some (row !! "state").

(** The phone number of each uuid of a lookup result is its own. *)
Definition distinct_numbers (lut : gmap string string) (seen : gset string) : Prop :=
  ∀ uuid1 uuid2 data,
    uuid1 ∈ seen → uuid2 ∈ seen →
    lut !! uuid1 = Some data → lut !! uuid2 = Some data → uuid1 = uuid2.

(** The counters of a list of contacts: for each target location, how many
    of the contacts are at it. *)
Definition counts_of (found : list (string * string)) : gmap string nat :=
  map_imap (λ location _, Some (count_at location found)) zero_counts.

(** The running totals after the contacts [found]: their uuids, each
    counted at the location of its first contact. *)
Definition reference_running (found : list (string * string)) : running :=
  {| uuids := uids_of found;
     location_counts := counts_of (first_occurrences ∅ found) |}.

(** The report of a file, [before] being the contacts of the files read
    before it. *)
Definition reference_report (before : list (string * string))
    (data : list (gmap string string)) : file_report :=
  {| found := size (uids_of (contacts_of data));
     per_location := counts_of (first_occurrences ∅ (contacts_of data));
     running_total := size (uids_of (before ++ contacts_of data)%list);
     running_per_location :=
       counts_of (first_occurrences ∅ (before ++ contacts_of data)%list) |}.

Fixpoint reference_reports (before : list (string * string))
    (files : list (list (gmap string string))) : list file_report :=
  match files with
  | [] => []
  | data :: files' =>
      reference_report before data
      :: reference_reports (before ++ contacts_of data)%list files'
  end.

(** What the search of the files gives, without the loops. *)
Definition reference_search (files : list (list (gmap string string)))
    : running * list file_report :=
  (reference_running (contacts_of (concat files)), reference_reports [] files).

(** The export of a set of uuids with a lookup result, without the loop:
    a uuid with an entry gives its phone number, the others are skipped. *)
Definition reference_phone_numbers (lut : gmap string string) (seen : gset string)
    : gset string :=
  list_to_set ((λ data, "+" +:+ data) <$> omap (λ uuid, lut !! uuid) (elements seen)).

Definition reference_skipped (lut : gmap string string) (seen : gset string)
    : gset string :=
  seen ∖ dom lut.

(** What the script logs and writes for files all of whose rows have a
    state, given the lookup result. *)
Definition reference_export (lut : gmap string string)
    (files : list (list (gmap string string))) : export :=
  let seen := uids_of (contacts_of (concat files)) in
  {| reports := reference_reports [] files;
     converted := reference_phone_numbers lut seen;
     skipped := reference_skipped lut seen;
     contacts := write_contacts (reference_phone_numbers lut seen) |}.

(** Two exports agree: the same reports, phone numbers and skipped uuids,
    and contacts files with the same header and the same rows. The rows are
    compared as a collection: the script writes them in the order in which
    Python iterates over the set of phone numbers, which the set alone
    does not fix. *)
Definition same_export (a b : export) : Prop :=
  reports a = reports b
  ∧ converted a = converted b
  ∧ skipped a = skipped b
  ∧ head (contacts a) = head (contacts b)
  ∧ tail (contacts a) ≡ₚ tail (contacts b).

(** A row the search counts. *)
Definition counted_row (row : gmap string string) : Prop :=
  is_Some (contact_of row).

End search_reference.

#[global] Instance has_state_dec (row : gmap string string) : Decision (has_state row).
Proof. unfold has_state. apply _. Defined.

#[global] Instance counted_row_dec (row : gmap string string) : Decision (counted_row row).
Proof. unfold counted_row. apply _. Defined.

(** * Properties *)

Lemma bind_Ok {A B : Type} (f : A → result B) (r : result A) (b : B) :
  r ≫= f = Ok b ↔ ∃ a, r = Ok a ∧ f a = Ok b.
Proof.
  destruct r as [a|e]; simpl.
  - split; [eauto | intros (a' & [= <-] & Hf); exact Hf].
  - split; [discriminate | intros (a' & [=] & _)].
Qed.

(** Take apart a hypothesis [x ← r; k = Ok b]. *)
Ltac inv_bind H :=
  let a := fresh "a" in
  let Ha := fresh "Ha" in
  apply bind_Ok in H as (a & Ha & H).

(** ** The catalogs *)

Section coding_plans_properties.
Context `{CoreDataModules}.

Lemma ws_correct_dataset_code_resolves (match_value : string) :
  resolves match_value → ∃ code, ws_correct_dataset_code match_value = Ok code.
Proof.
  unfold resolves, ws_correct_dataset_code. intros [code ->]. by exists code.
Qed.

Lemma make_rqa_coding_plan_resolves (episode : string) (scheme : CodeSchemes)
    (match_value coda : string) :
  resolves match_value →
  ∃ plan, make_rqa_coding_plan episode scheme match_value coda = Ok plan.
Proof.
  intros [code Hcode]%ws_correct_dataset_code_resolves.
  unfold make_rqa_coding_plan. rewrite Hcode. simpl. eauto.
Qed.

(** What [make_rqa_coding_plan] puts in the plan it returns. *)
Lemma make_rqa_coding_plan_fields (episode : string) (scheme : CodeSchemes)
    (match_value coda : string) (plan : CodingPlan) :
  make_rqa_coding_plan episode scheme match_value coda = Ok plan →
  dataset_name plan = Some (PyStr.replace episode "rqa_" "")
  ∧ raw_field plan = episode +:+ "_raw"
  ∧ coded_fields plan = [episode +:+ "_coded"]
  ∧ analysis_file_keys plan = [episode].
Proof.
  unfold make_rqa_coding_plan. intros Hplan. inv_bind Hplan.
  injection Hplan as <-. done.
Qed.

Lemma make_rqa_coding_plan_of_episode (episode : string) (scheme : CodeSchemes)
    (match_value coda : string) (plan : CodingPlan) :
  PyStr.remove_prefix "rqa_" episode = Some (PyStr.replace episode "rqa_" "") →
  make_rqa_coding_plan episode scheme match_value coda = Ok plan →
  plan_of_episode plan episode.
Proof.
  intros Hprefix (Hname & Hraw & _ & Hkeys)%make_rqa_coding_plan_fields.
  unfold plan_of_episode. by rewrite Hprefix.
Qed.

(** Run the next [make_rqa_coding_plan] of the catalog, given that its match
    value resolves. *)
Ltac next_rqa_plan Hres :=
  let Hv := fresh "Hv" in
  let p := fresh "p" in
  let Hp := fresh "Hp" in
  apply Forall_cons in Hres as [Hv Hres];
  match goal with
  | |- context [make_rqa_coding_plan ?e ?s ?v ?f] =>
      destruct (make_rqa_coding_plan_resolves e s v f Hv) as [p Hp];
      rewrite Hp; simpl
  end.

(** C1. For each variant the RQA catalog accepts, [get_rqa_coding_plans]
    returns one plan per declared episode, in order (four for SSF-DCF, six
    for SSF-SLD), and the [dataset_name] of each plan is its episode
    identifier without the prefix [rqa_]. The plans are returned when the WS
    scheme has the match values the variant looks up. *)
Theorem get_rqa_coding_plans_per_episode (pipeline_name : string) :
  pipeline_name = "SSF-DCF" ∨ pipeline_name = "SSF-SLD" →
  Forall resolves (rqa_match_values pipeline_name) →
  ∃ plans,
    get_rqa_coding_plans pipeline_name = Ok plans
    ∧ Forall2 plan_of_episode plans (declared_episodes pipeline_name)
    ∧ length plans = (if decide (pipeline_name = "SSF-DCF") then 4 else 6).
Proof.
  intros [-> | ->] Hres;
    unfold rqa_match_values, declared_episodes, get_rqa_coding_plans in *.
  - rewrite decide_True in Hres by done. rewrite !decide_True by done.
    do 4 next_rqa_plan Hres.
    eexists. split; [reflexivity|]. split; [|reflexivity].
    repeat constructor; eapply make_rqa_coding_plan_of_episode; eauto.
  - rewrite decide_False, decide_True in Hres by done.
    rewrite !(decide_False (P := "SSF-SLD" = "SSF-DCF")) by done.
    rewrite !decide_True by done.
    unfold py_assert. rewrite decide_True by done. simpl.
    do 6 next_rqa_plan Hres.
    eexists. split; [reflexivity|]. split; [|reflexivity].
    repeat constructor; eapply make_rqa_coding_plan_of_episode; eauto.
Qed.

(** C5. A variant other than the two known ones makes [get_rqa_coding_plans]
    fail on its assertion: it raises [AssertionError] before any plan is
    made (no lookup in the WS scheme is reached), whatever the registry
    holds, and so returns no value. *)
Theorem get_rqa_coding_plans_unknown_variant (pipeline_name : string) :
  pipeline_name ≠ "SSF-DCF" →
  pipeline_name ≠ "SSF-SLD" →
  get_rqa_coding_plans pipeline_name = Raise AssertionError.
Proof.
  intros Hdcf Hsld. unfold get_rqa_coding_plans, py_assert.
  by rewrite !decide_False by done.
Qed.

(** The RQA catalog returns plans for the two known variants only. *)
Lemma get_rqa_coding_plans_accepts (pipeline_name : string) (plans : list CodingPlan) :
  get_rqa_coding_plans pipeline_name = Ok plans →
  pipeline_name = "SSF-DCF" ∨ pipeline_name = "SSF-SLD".
Proof.
  intros Hplans.
  destruct (decide (pipeline_name = "SSF-DCF")) as [|Hdcf]; [by left|].
  destruct (decide (pipeline_name = "SSF-SLD")) as [|Hsld]; [by right|].
  unfold get_rqa_coding_plans, py_assert in Hplans.
  by rewrite !decide_False in Hplans by done.
Qed.

Lemma unique_fields_rqa (episode : string) (scheme : CodeSchemes)
    (match_value coda : string) (plan : CodingPlan) :
  make_rqa_coding_plan episode scheme match_value coda = Ok plan →
  unique_fields plan.
Proof.
  intros (_ & _ & Hcoded & Hkeys)%make_rqa_coding_plan_fields.
  unfold unique_fields. rewrite Hcoded, Hkeys. split; apply NoDup_singleton.
Qed.

(** A list of string literals has no duplicates: by evaluation. *)
Ltac nodup_literals := apply (bool_decide_unpack _); vm_compute; exact I.

(** C4. In every plan a catalog function returns, the [coded_field]s of the
    configurations are pairwise distinct, and so are the
    [analysis_file_key]s: the plans have the property as the catalog
    constructs them. *)
Theorem catalog_plans_unique_fields (pipeline_name : string) (plans : list CodingPlan) :
  get_rqa_coding_plans pipeline_name = Ok plans
  ∨ get_demog_coding_plans pipeline_name = Ok plans
  ∨ get_follow_up_coding_plans pipeline_name = plans
  ∨ get_engagement_coding_plans pipeline_name = plans →
  Forall unique_fields plans.
Proof.
  intros [Hplans | [Hplans | [<- | <-]]]; [| | constructor ..].
  - unfold get_rqa_coding_plans in Hplans. case_decide.
    + do 4 inv_bind Hplans. injection Hplans as <-.
      repeat constructor; eapply unique_fields_rqa; eauto.
    + do 7 inv_bind Hplans. injection Hplans as <-.
      repeat constructor; eapply unique_fields_rqa; eauto.
  - unfold get_demog_coding_plans in Hplans.
    do 5 inv_bind Hplans. injection Hplans as <-.
    repeat constructor; unfold coded_fields, analysis_file_keys; simpl;
      nodup_literals.
Qed.

(** C6. [get_demog_coding_plans] does not depend on its argument; when the
    WS scheme has the five match values it looks up, it returns the five
    plans gender, age, recently-displaced, household-language, location, in
    this order. [get_follow_up_coding_plans] and
    [get_engagement_coding_plans] return the empty list. *)
Theorem get_demog_coding_plans_fixed (pipeline_name other : string) :
  get_demog_coding_plans pipeline_name = get_demog_coding_plans other
  ∧ (Forall resolves demog_match_values →
     ∃ plans,
       get_demog_coding_plans pipeline_name = Ok plans
       ∧ length plans = 5
       ∧ raw_field <$> plans =
           [ "gender_raw"; "age_raw"; "recently_displaced_raw";
             "household_language_raw"; "location_raw" ]
       ∧ coded_fields <$> plans =
           [ [ "gender_coded" ];
             [ "age_coded"; "age_category_coded" ];
             [ "recently_displaced_coded" ];
             [ "household_language_coded" ];
             [ "mogadishu_sub_district_coded"; "district_coded"; "region_coded";
               "state_coded"; "zone_coded" ] ])
  ∧ get_follow_up_coding_plans pipeline_name = []
  ∧ get_engagement_coding_plans pipeline_name = [].
Proof.
  split; [reflexivity|]. split; [|done].
  unfold demog_match_values. intros Hres.
  repeat (apply Forall_cons in Hres as [[? ?]%ws_correct_dataset_code_resolves Hres]).
  unfold get_demog_coding_plans.
  repeat match goal with Hc : ws_correct_dataset_code _ = Ok _ |- _ =>
    rewrite Hc; clear Hc; simpl end.
  eexists. split; [reflexivity|]. done.
Qed.

(** C2, as the code has it. [clean_district_if_no_mogadishu_sub_district]
    returns [NOT_CODED] when the Mogadishu sub-district cleaner matches the
    text, and the result of the district cleaner otherwise; the sub-district
    and the district are never both codes. (Neither is one when no cleaner
    matches.) *)
Theorem clean_district_at_most_one_coded (text : string) :
  (somali_clean_mogadishu_sub_district text ≠ Codes.NOT_CODED →
   clean_district_if_no_mogadishu_sub_district text = Codes.NOT_CODED)
  ∧ (somali_clean_mogadishu_sub_district text = Codes.NOT_CODED →
     clean_district_if_no_mogadishu_sub_district text
     = somali_clean_somalia_district text)
  ∧ ¬ (somali_clean_mogadishu_sub_district text ≠ Codes.NOT_CODED
       ∧ clean_district_if_no_mogadishu_sub_district text ≠ Codes.NOT_CODED)
  ∧ exactly_one_coded text
    = coded (somali_clean_mogadishu_sub_district text)
      || coded (somali_clean_somalia_district text).
Proof.
  unfold exactly_one_coded, coded, clean_district_if_no_mogadishu_sub_district.
  destruct (decide (somali_clean_mogadishu_sub_district text = Codes.NOT_CODED))
    as [Hnone | Hsome].
  - rewrite Hnone. split; [done|]. split; [done|]. split; [by intros [? _]|].
    by rewrite (bool_decide_eq_false_2 (Codes.NOT_CODED ≠ Codes.NOT_CODED)) by auto.
  - split; [done|]. split; [done|]. split; [by intros [_ ?]|].
    rewrite (bool_decide_eq_true_2 _ Hsome).
    by rewrite (bool_decide_eq_false_2 (Codes.NOT_CODED ≠ Codes.NOT_CODED)) by auto.
Qed.

(** [str] of an integer is never the sentinel. *)
Lemma str_not_NOT_CODED (n : Z) : PyStr.str n ≠ Codes.NOT_CODED.
Proof.
  unfold PyStr.str, Codes.NOT_CODED.
  destruct (Z.to_int n) as [d | d]; [destruct d; discriminate | discriminate].
Qed.

(** C3. [clean_age_with_range_filter] returns [str] of the cleaned age
    exactly when the age cleaner gives an integer in [10, 100), and
    [NOT_CODED] for every other text. In particular, where the age cleaner
    reads 25, 150 and 5 from the texts of these numbers and nothing from
    [abc], the four results are [25], [NOT_CODED], [NOT_CODED] and
    [NOT_CODED]. *)
Theorem clean_age_with_range_filter_range (text : string) :
  (∀ n, swahili_clean_age text = PyInt n → (10 ≤ n < 100)%Z →
        clean_age_with_range_filter text = PyStr.str n)
  ∧ (clean_age_with_range_filter text ≠ Codes.NOT_CODED ↔
     ∃ n, swahili_clean_age text = PyInt n ∧ (10 ≤ n < 100)%Z)
  ∧ (swahili_clean_age "25" = PyInt 25 → clean_age_with_range_filter "25" = "25")
  ∧ (swahili_clean_age "150" = PyInt 150 →
     clean_age_with_range_filter "150" = Codes.NOT_CODED)
  ∧ (swahili_clean_age "5" = PyInt 5 →
     clean_age_with_range_filter "5" = Codes.NOT_CODED)
  ∧ (swahili_clean_age "abc" = PyStr Codes.NOT_CODED →
     clean_age_with_range_filter "abc" = Codes.NOT_CODED).
Proof.
  unfold clean_age_with_range_filter. repeat split.
  - intros n -> Hrange. by rewrite decide_True.
  - destruct (swahili_clean_age text) as [n | s]; [|done].
    case_decide; [eauto | done].
  - intros (n & -> & Hrange). rewrite decide_True by done. apply str_not_NOT_CODED.
  - by intros ->.
  - by intros ->.
  - by intros ->.
  - by intros ->.
Qed.

End coding_plans_properties.

(** ** The exporter *)

Section exporter_properties.
Import Exporter.

Lemma total_empty : total ∅ = 0.
Proof. unfold total. apply map_fold_empty. Qed.

Lemma total_insert_fresh (counts : gmap string nat) (location : string) (c : nat) :
  counts !! location = None →
  total (<[location := c]> counts) = c + total counts.
Proof.
  intros Hfresh. unfold total. rewrite map_fold_insert_L; [done | | done].
  intros. lia.
Qed.

(** [counts[location] += 1] adds one to the sum. *)
Lemma total_increment (counts : gmap string nat) (location : string) (c : nat) :
  counts !! location = Some c →
  total (<[location := c + 1]> counts) = total counts + 1.
Proof.
  intros Hc.
  rewrite <-(insert_delete_id counts location c) at 2 by done.
  rewrite <-(insert_delete_eq counts).
  rewrite !total_insert_fresh by apply lookup_delete_eq. lia.
Qed.

Lemma total_zero_counts : total zero_counts = 0.
Proof.
  unfold zero_counts. generalize TARGET_LOCATIONS.
  intros X. induction X as [|x X Hx IH] using set_ind_L.
  - rewrite gset_to_gmap_empty. apply total_empty.
  - rewrite gset_to_gmap_union_singleton, total_insert_fresh, IH; [done|].
    by apply lookup_gset_to_gmap_None.
Qed.

Lemma increment_Ok (counts : gmap string nat) (location : string) :
  location ∈ dom counts →
  ∃ c, counts !! location = Some c
       ∧ increment counts location = Ok (<[location := c + 1]> counts).
Proof.
  intros [c Hc]%elem_of_dom. exists c. split; [done|].
  unfold increment, getitem. by rewrite Hc.
Qed.

Lemma counted_start : counted ∅ zero_counts.
Proof.
  split.
  - unfold zero_counts. apply dom_gset_to_gmap.
  - by rewrite total_zero_counts, size_empty.
Qed.

(** A first occurrence keeps the counters in step with the set. *)
Lemma counted_increment (seen : gset string) (counts : gmap string nat)
    (location uid : string) :
  counted seen counts → location ∈ TARGET_LOCATIONS → uid ∉ seen →
  ∃ counts', increment counts location = Ok counts'
             ∧ counted ({[ uid ]} ∪ seen) counts'.
Proof.
  intros [Hdom Htotal] Hloc Hnew.
  destruct (increment_Ok counts location) as (c & Hc & Hincr); [by rewrite Hdom|].
  eexists. split; [done|]. split.
  - rewrite dom_insert_L, Hdom. by apply subseteq_union_1_L, singleton_subseteq_l.
  - rewrite total_increment, Htotal by done.
    rewrite size_union, size_singleton; [lia|].
    by apply disjoint_singleton_l.
Qed.

(** [search_row] by cases on the row, the dictionary accesses resolved. *)
Lemma search_row_cases (tot : running) (cur : per_file) (row : gmap string string) :
  search_row (tot, cur) row =
  match row !! "state" with
  | None => Raise (KeyError "state")
  | Some location =>
      if decide (location = Codes.STOP) then Ok (tot, cur)
      else if decide (location ∈ TARGET_LOCATIONS) then
        match row !! "uid" with
        | None => Ok (tot, cur)
        | Some uid =>
            cur' ← (if decide (uid ∉ file_uuids cur) then
                      counts ← increment (file_location_counts cur) location;
                      mret {| file_uuids := {[ uid ]} ∪ file_uuids cur;
                              file_location_counts := counts |}
                    else mret cur);
            tot' ← (if decide (uid ∉ uuids tot) then
                      counts ← increment (location_counts tot) location;
                      mret {| uuids := {[ uid ]} ∪ uuids tot;
                              location_counts := counts |}
                    else mret tot);
            mret (tot', cur')
        end
      else Ok (tot, cur)
  end.
Proof.
  unfold search_row, getitem.
  destruct (row !! "state") as [location|] eqn:Hstate; simpl; [|done].
  case_decide; [done|]. case_decide; [|done].
  destruct (row !! "uid") as [uid|] eqn:Huid; simpl.
  - rewrite decide_False; [done|].
    intros Hdom. apply Hdom, elem_of_dom. by rewrite Huid.
  - rewrite decide_True; [done|]. by apply not_elem_of_dom.
Qed.

(** A row with a [state] column takes a state of the search that has the
    invariant to one that has it; a row without one raises [KeyError]. *)
Lemma search_row_invariant (st : running * per_file) (row : gmap string string) :
  search_invariant st →
  match row !! "state" with
  | None => search_row st row = Raise (KeyError "state")
  | Some _ => ∃ st', search_row st row = Ok st' ∧ search_invariant st'
  end.
Proof.
  destruct st as [tot cur]. intros [Htot Hcur]. simpl in Htot, Hcur.
  rewrite search_row_cases.
  destruct (row !! "state") as [location|]; [|done].
  case_decide; [by eexists|]. case_decide as Hloc; [|by eexists].
  destruct (row !! "uid") as [uid|]; [|by eexists].
  assert (∃ cur', (if decide (uid ∉ file_uuids cur) then
                     counts ← increment (file_location_counts cur) location;
                     mret {| file_uuids := {[ uid ]} ∪ file_uuids cur;
                             file_location_counts := counts |}
                   else mret cur) = Ok cur'
                  ∧ counted (file_uuids cur') (file_location_counts cur'))
    as (cur' & -> & Hcur').
  { case_decide as Hnew; [|by eexists].
    destruct (counted_increment _ _ location uid Hcur Hloc Hnew) as (c & -> & Hc).
    by eexists. }
  assert (∃ tot', (if decide (uid ∉ uuids tot) then
                     counts ← increment (location_counts tot) location;
                     mret {| uuids := {[ uid ]} ∪ uuids tot;
                             location_counts := counts |}
                   else mret tot) = Ok tot'
                  ∧ counted (uuids tot') (location_counts tot'))
    as (tot' & -> & Htot').
  { case_decide as Hnew; [|by eexists].
    destruct (counted_increment _ _ location uid Htot Hloc Hnew) as (c & -> & Hc).
    by eexists. }
  by eexists.
Qed.

Lemma search_row_Ok_invariant (st st' : running * per_file) (row : gmap string string) :
  search_invariant st → search_row st row = Ok st' → search_invariant st'.
Proof.
  intros Hinv Hrow. pose proof (search_row_invariant st row Hinv) as Hcases.
  destruct (row !! "state").
  - destruct Hcases as (st'' & Hrow' & Hinv'). congruence.
  - congruence.
Qed.

Lemma search_rows_invariant (rows : list (gmap string string)) (st st' : running * per_file) :
  search_invariant st → for_each search_row st rows = Ok st' → search_invariant st'.
Proof.
  revert st. induction rows as [|row rows IH]; intros st Hinv Hrows; simpl in Hrows.
  - by injection Hrows as <-.
  - inv_bind Hrows. eauto using search_row_Ok_invariant.
Qed.

(** The rows of a file are all searched when each has a [state] column. *)
Lemma search_rows_total (rows : list (gmap string string)) (st : running * per_file) :
  search_invariant st →
  Forall (λ row, is_Some (row !! "state")) rows →
  ∃ st', for_each search_row st rows = Ok st'.
Proof.
  revert st. induction rows as [|row rows IH]; intros st Hinv Hstate; simpl.
  - by eexists.
  - apply Forall_cons in Hstate as [[state Hrow] Hstate].
    pose proof (search_row_invariant st row Hinv) as Hcases. rewrite Hrow in Hcases.
    destruct Hcases as (st1 & -> & Hinv1). simpl. by apply IH.
Qed.

Lemma search_data_invariant (tot : running) (data : list (gmap string string))
    (st : running * per_file) :
  counted (uuids tot) (location_counts tot) →
  search_data tot data = Ok st →
  search_invariant st.
Proof.
  intros Htot. apply search_rows_invariant. split; [done|]. apply counted_start.
Qed.

Lemma search_files_invariant (files : list (list (gmap string string)))
    (acc r : running * list file_report) :
  counted (uuids acc.1) (location_counts acc.1) →
  Forall report_adds_up acc.2 →
  for_each search_file acc files = Ok r →
  counted (uuids r.1) (location_counts r.1) ∧ Forall report_adds_up r.2.
Proof.
  revert acc. induction files as [|data files IH]; intros acc Hacc Hlog Hfiles;
    simpl in Hfiles.
  - by injection Hfiles as <-.
  - inv_bind Hfiles. unfold search_file in Ha. inv_bind Ha.
    injection Ha as <-.
    apply search_data_invariant in Ha0 as [Hrun [Hdom Htot]]; [|done].
    eapply IH; [| |exact Hfiles]; simpl; [done|].
    apply Forall_app. split; [done|].
    destruct Hrun as [_ Hrun]. by repeat constructor.
Qed.

Lemma search_file_Ok (acc : running * list file_report)
    (data : list (gmap string string)) (st : running * per_file) :
  search_data acc.1 data = Ok st →
  search_file acc data = Ok (st.1, (acc.2 ++ [report st])%list).
Proof. unfold search_file. by intros ->. Qed.

Lemma search_files_total (files : list (list (gmap string string))) :
  Forall (Forall (λ row, is_Some (row !! "state"))) files →
  ∃ r, search_files files = Ok r.
Proof.
  unfold search_files.
  assert (counted (uuids start) (location_counts start)) as Hstart
    by apply counted_start.
  revert Hstart. generalize (@nil file_report). generalize start.
  induction files as [|data files IH]; intros tot logged Htot Hstate; simpl.
  - by eexists.
  - apply Forall_cons in Hstate as [Hdata Hstate].
    destruct (search_rows_total data (tot, new_file)) as [st Hst]; [|done|].
    { split; [done|]. apply counted_start. }
    rewrite (search_file_Ok (tot, logged) data st Hst). simpl.
    apply IH; [|done].
    by apply (search_rows_invariant data (tot, new_file) st (conj Htot counted_start)).
Qed.

Lemma increment_raises (counts : gmap string nat) (location : string) (e : exn) :
  increment counts location = Raise e → e = KeyError location.
Proof.
  unfold increment, getitem.
  destruct (counts !! location); simpl; [discriminate | by intros [= <-]].
Qed.

Lemma uid_not_target_location : "uid" ∉ TARGET_LOCATIONS.
Proof. apply (bool_decide_unpack _). vm_compute. exact I. Qed.

(** C9. A row whose state is a target location and which has no [uid]
    column leaves the search as it was: no counter moves and no set grows.
    And no row at all makes the search raise [KeyError] on [uid]: the field
    is only read where the row has it. *)
Theorem search_row_without_uid (st : running * per_file) (row : gmap string string) :
  search_row st row ≠ Raise (KeyError "uid")
  ∧ (∀ location,
       row !! "state" = Some location → location ∈ TARGET_LOCATIONS →
       "uid" ∉ dom row →
       search_row st row = Ok st).
Proof.
  destruct st as [tot cur]. rewrite search_row_cases. split.
  - destruct (row !! "state") as [location|]; [|congruence].
    case_decide; [done|]. case_decide as Hloc; [|done].
    destruct (row !! "uid") as [uid|]; [|done].
    assert (location ≠ "uid") as Hne.
    { intros ->. by apply uid_not_target_location. }
    destruct (decide (uid ∉ file_uuids cur)); simpl.
    + destruct (increment (file_location_counts cur) location) eqn:Hcur; simpl.
      * destruct (decide (uid ∉ uuids tot)); simpl; [|done].
        destruct (increment (location_counts tot) location) eqn:Htot; simpl; [done|].
        apply increment_raises in Htot. congruence.
      * apply increment_raises in Hcur. congruence.
    + destruct (decide (uid ∉ uuids tot)); simpl; [|done].
      destruct (increment (location_counts tot) location) eqn:Htot; simpl; [done|].
      apply increment_raises in Htot. congruence.
  - intros location -> Hloc Huid%not_elem_of_dom. rewrite Huid.
    case_decide; [done|]. by rewrite decide_True.
Qed.

(** What the loop over [uuids] leaves in [phone_numbers] and in
    [skipped_uuids]. *)
Lemma convert_uuids_spec (lut : gmap string string) (seen : gset string) :
  (∀ n, n ∈ (convert_uuids lut seen).1 ↔
        ∃ uuid data, uuid ∈ seen ∧ lut !! uuid = Some data ∧ n = "+" +:+ data)
  ∧ (∀ uuid, uuid ∈ (convert_uuids lut seen).2 ↔ uuid ∈ seen ∧ lut !! uuid = None).
Proof.
  unfold convert_uuids.
  apply (set_fold_ind_L (λ acc (X : gset string),
    (∀ n, n ∈ acc.1 ↔ ∃ uuid data, uuid ∈ X ∧ lut !! uuid = Some data ∧ n = "+" +:+ data)
    ∧ (∀ uuid, uuid ∈ acc.2 ↔ uuid ∈ X ∧ lut !! uuid = None))).
  - simpl. split; intros x; split.
    + by intros ?%not_elem_of_empty.
    + by intros (uuid & data & ?%not_elem_of_empty & _).
    + by intros ?%not_elem_of_empty.
    + by intros [?%not_elem_of_empty _].
  - intros x X [phone_numbers skipped_uuids] Hx [IHp IHs]. simpl in IHp, IHs.
    unfold convert_uuid. destruct (lut !! x) as [data|] eqn:Hlut; simpl.
    + split.
      * intros n. rewrite elem_of_union, elem_of_singleton, IHp. split.
        -- intros [-> | (uuid & d & Hin & Hd & ->)].
           ++ exists x, data. rewrite elem_of_union, elem_of_singleton. auto.
           ++ exists uuid, d. rewrite elem_of_union. auto.
        -- intros (uuid & d & [->%elem_of_singleton | Hin]%elem_of_union & Hd & ->).
           ++ left. congruence.
           ++ right. eauto.
      * intros uuid. rewrite IHs, elem_of_union, elem_of_singleton. split.
        -- intros [Hin Hnone]. auto.
        -- intros [[-> | Hin] Hnone]; [congruence | done].
    + split.
      * intros n. rewrite IHp. split.
        -- intros (uuid & d & Hin & Hd & ->).
           exists uuid, d. rewrite elem_of_union. auto.
        -- intros (uuid & d & [->%elem_of_singleton | Hin]%elem_of_union & Hd & ->).
           ++ congruence.
           ++ eauto.
      * intros uuid. rewrite !elem_of_union, !elem_of_singleton, IHs. split.
        -- intros [-> | [Hin Hnone]]; auto.
        -- intros [[-> | Hin] Hnone]; auto.
Qed.

Lemma writerow_contact (n : string) : writerow {[ "URN:Tel" := n ]} = [n; ""].
Proof.
  unfold writerow, fieldnames. simpl.
  by rewrite lookup_singleton_eq, lookup_singleton_ne.
Qed.

Lemma write_contacts_rows (phone_numbers : gset string) :
  write_contacts phone_numbers
  = fieldnames :: ((λ n, [n; ""]) <$> elements phone_numbers).
Proof.
  reflexivity.
Qed.

(** C8. A uuid the search found and the lookup result does not have is
    put in [skipped_uuids], whose size it adds one to, and gives no phone
    number: the phone numbers are those of the other uuids. The run goes on
    to the end: the contacts file has a row for each uuid the lookup result
    has, and no other row below the header. *)
Theorem unresolved_uuid_skipped (phone_number_uuid_table : FirestoreUuidTable)
    (files : list (list (gmap string string))) (tot : running)
    (logged : list file_report) (lut : gmap string string) (uid : string) :
  search_files files = Ok (tot, logged) →
  uid ∈ uuids tot →
  uuid_to_data_batch phone_number_uuid_table (uuids tot) = Ok lut →
  lut !! uid = None →
  ∃ out,
    main phone_number_uuid_table files = Ok out
    ∧ uid ∈ skipped out
    ∧ skipped out = {[ uid ]} ∪ (convert_uuids lut (uuids tot ∖ {[ uid ]})).2
    ∧ size (skipped out) = S (size (convert_uuids lut (uuids tot ∖ {[ uid ]})).2)
    ∧ converted out = (convert_uuids lut (uuids tot ∖ {[ uid ]})).1
    ∧ contacts out = fieldnames :: phone_number_rows out
    ∧ (∀ uuid data, uuid ∈ uuids tot → lut !! uuid = Some data →
         ["+" +:+ data; ""] ∈ phone_number_rows out)
    ∧ (∀ row, row ∈ phone_number_rows out →
         ∃ uuid data, uuid ∈ uuids tot ∧ uuid ≠ uid ∧ lut !! uuid = Some data
                      ∧ row = ["+" +:+ data; ""]).
Proof.
  intros Hfiles Hin Hbatch Hnone.
  unfold main. rewrite Hfiles. simpl. rewrite Hbatch. simpl.
  destruct (convert_uuids_spec lut (uuids tot)) as [Hphones Hskipped].
  destruct (convert_uuids_spec lut (uuids tot ∖ {[ uid ]})) as [Hphones' Hskipped'].
  destruct (convert_uuids lut (uuids tot)) as [phone_numbers skipped_uuids].
  destruct (convert_uuids lut (uuids tot ∖ {[ uid ]})) as [phone_numbers' skipped_uuids'].
  simpl in *.
  assert (uid ∉ skipped_uuids') as Hfresh.
  { rewrite Hskipped', elem_of_difference, elem_of_singleton. by intros [[_ ?] _]. }
  assert (skipped_uuids = {[ uid ]} ∪ skipped_uuids') as Hsplit.
  { apply set_eq. intros uuid.
    rewrite elem_of_union, elem_of_singleton, Hskipped, Hskipped',
      elem_of_difference, elem_of_singleton.
    split.
    - intros [Huuid Hlut]. destruct (decide (uuid = uid)); auto.
    - intros [-> | [[Huuid _] Hlut]]; auto. }
  eexists. split; [reflexivity|]. unfold phone_number_rows. simpl.
  split; [by apply Hskipped|]. split; [done|]. split.
  { rewrite Hsplit, size_union, size_singleton; [done|].
    by apply disjoint_singleton_l. }
  split.
  { apply set_eq. intros n. rewrite Hphones, Hphones'. split.
    - intros (uuid & data & Huuid & Hlut & ->). exists uuid, data.
      rewrite elem_of_difference, elem_of_singleton.
      repeat split; [done | congruence | done].
    - intros (uuid & data & [Huuid _]%elem_of_difference & Hlut & ->). eauto. }
  split; [done|]. split.
  - intros uuid data Huuid Hlut.
    apply list_elem_of_fmap. exists ("+" +:+ data). split; [done|].
    apply elem_of_elements, Hphones. eauto.
  - intros row (n & -> & Hn)%list_elem_of_fmap.
    apply elem_of_elements, Hphones in Hn as (uuid & data & Huuid & Hlut & ->).
    exists uuid, data. repeat split; [done | congruence | done].
Qed.

Lemma zero_counts_lookup (location : string) :
  location ∈ TARGET_LOCATIONS → zero_counts !! location = Some 0.
Proof. intros Hloc. by apply lookup_gset_to_gmap_Some. Qed.

Lemma target_location_not_STOP (location : string) :
  location ∈ TARGET_LOCATIONS → location ≠ Codes.STOP.
Proof.
  intros Hloc ->. revert Hloc. apply (bool_decide_unpack _). vm_compute. exact I.
Qed.

(** The first row of a uuid in a file and in the run. *)
Lemma search_row_first (tot : running) (cur : per_file) (row : gmap string string)
    (location uid : string) (c1 c2 : nat) :
  row !! "state" = Some location → location ∈ TARGET_LOCATIONS →
  row !! "uid" = Some uid →
  uid ∉ file_uuids cur → file_location_counts cur !! location = Some c1 →
  uid ∉ uuids tot → location_counts tot !! location = Some c2 →
  search_row (tot, cur) row
  = Ok ({| uuids := {[ uid ]} ∪ uuids tot;
           location_counts := <[location := c2 + 1]> (location_counts tot) |},
        {| file_uuids := {[ uid ]} ∪ file_uuids cur;
           file_location_counts := <[location := c1 + 1]> (file_location_counts cur) |}).
Proof.
  intros Hstate Hloc Huid Hcur Hc1 Htot Hc2.
  rewrite search_row_cases, Hstate, Huid.
  rewrite decide_False by by apply target_location_not_STOP.
  rewrite !decide_True by done.
  unfold increment, getitem. by rewrite Hc1, Hc2.
Qed.

(** The first row of a uuid in a file, the run having seen the uuid. *)
Lemma search_row_first_in_file (tot : running) (cur : per_file)
    (row : gmap string string) (location uid : string) (c1 : nat) :
  row !! "state" = Some location → location ∈ TARGET_LOCATIONS →
  row !! "uid" = Some uid →
  uid ∉ file_uuids cur → file_location_counts cur !! location = Some c1 →
  uid ∈ uuids tot →
  search_row (tot, cur) row
  = Ok (tot,
        {| file_uuids := {[ uid ]} ∪ file_uuids cur;
           file_location_counts := <[location := c1 + 1]> (file_location_counts cur) |}).
Proof.
  intros Hstate Hloc Huid Hcur Hc1 Htot.
  rewrite search_row_cases, Hstate, Huid.
  rewrite decide_False by by apply target_location_not_STOP.
  rewrite (decide_True (P := location ∈ TARGET_LOCATIONS)) by done.
  rewrite (decide_True (P := uid ∉ file_uuids cur)) by done.
  rewrite (decide_False (P := uid ∉ uuids tot)) by (intros Hnot; by apply Hnot).
  unfold increment, getitem. by rewrite Hc1.
Qed.

Lemma search_data_one (tot : running) (row : gmap string string)
    (st : running * per_file) :
  search_row (tot, new_file) row = Ok st → search_data tot [row] = Ok st.
Proof. unfold search_data. simpl. by intros ->. Qed.

(** The search of two files of one row each, the rows of one uuid in
    target locations. *)
Lemma search_two_files (row1 row2 : gmap string string) (state1 state2 uid : string) :
  row1 !! "state" = Some state1 → state1 ∈ TARGET_LOCATIONS →
  row1 !! "uid" = Some uid →
  row2 !! "state" = Some state2 → state2 ∈ TARGET_LOCATIONS →
  row2 !! "uid" = Some uid →
  search_files [[row1]; [row2]]
  = Ok ({| uuids := {[ uid ]}; location_counts := <[state1 := 1]> zero_counts |},
        [ {| found := 1; per_location := <[state1 := 1]> zero_counts;
             running_total := 1; running_per_location := <[state1 := 1]> zero_counts |};
          {| found := 1; per_location := <[state2 := 1]> zero_counts;
             running_total := 1; running_per_location := <[state1 := 1]> zero_counts |} ]).
Proof.
  intros Hstate1 Hloc1 Huid1 Hstate2 Hloc2 Huid2.
  assert (search_data start [row1]
          = Ok ({| uuids := {[ uid ]} ∪ ∅;
                   location_counts := <[state1 := 0 + 1]> zero_counts |},
                {| file_uuids := {[ uid ]} ∪ ∅;
                   file_location_counts := <[state1 := 0 + 1]> zero_counts |}))
    as Hfirst.
  { apply search_data_one.
    apply (search_row_first start new_file row1 state1 uid 0 0);
      first [done | by apply zero_counts_lookup | apply not_elem_of_empty]. }
  assert (search_data {| uuids := {[ uid ]} ∪ ∅;
                         location_counts := <[state1 := 0 + 1]> zero_counts |} [row2]
          = Ok ({| uuids := {[ uid ]} ∪ ∅;
                   location_counts := <[state1 := 0 + 1]> zero_counts |},
                {| file_uuids := {[ uid ]} ∪ ∅;
                   file_location_counts := <[state2 := 0 + 1]> zero_counts |}))
    as Hsecond.
  { apply search_data_one.
    apply (search_row_first_in_file _ new_file row2 state2 uid 0);
      first [done | by apply zero_counts_lookup | apply not_elem_of_empty | idtac].
    apply elem_of_union_l. by apply elem_of_singleton. }
  unfold search_files, for_each.
  rewrite (search_file_Ok (start, []) [row1] _ Hfirst). simpl mbind.
  erewrite search_file_Ok by exact Hsecond.
  unfold report.
  cbn [mbind result_bind fst snd app Nat.add
       uuids location_counts file_uuids file_location_counts].
  rewrite !(right_id_L (∅ : gset string) (∪)), !size_singleton. done.
Qed.

(** C7, as the code has it. Two files of one row each, the two rows of the
    same uuid and in target locations: when the lookup result has the uuid,
    the contacts file has one row below the header, the phone number of the
    uuid; the report of each file counts one contact, at the location of
    its row, and the running counters count one contact in all, at the
    location of the first row. *)
Theorem two_files_same_uid (phone_number_uuid_table : FirestoreUuidTable)
    (row1 row2 : gmap string string) (state1 state2 uid : string)
    (lut : gmap string string) (data : string) :
  row1 !! "state" = Some state1 → state1 ∈ TARGET_LOCATIONS →
  row1 !! "uid" = Some uid →
  row2 !! "state" = Some state2 → state2 ∈ TARGET_LOCATIONS →
  row2 !! "uid" = Some uid →
  uuid_to_data_batch phone_number_uuid_table {[ uid ]} = Ok lut →
  lut !! uid = Some data →
  ∃ out,
    main phone_number_uuid_table [[row1]; [row2]] = Ok out
    ∧ contacts out = [fieldnames; ["+" +:+ data; ""]]
    ∧ skipped out = ∅
    ∧ reports out =
        [ {| found := 1; per_location := <[state1 := 1]> zero_counts;
             running_total := 1; running_per_location := <[state1 := 1]> zero_counts |};
          {| found := 1; per_location := <[state2 := 1]> zero_counts;
             running_total := 1; running_per_location := <[state1 := 1]> zero_counts |} ].
Proof.
  intros Hstate1 Hloc1 Huid1 Hstate2 Hloc2 Huid2 Hbatch Hlut.
  unfold main.
  rewrite (search_two_files row1 row2 state1 state2 uid) by done. simpl.
  rewrite Hbatch. simpl.
  unfold convert_uuids. rewrite set_fold_singleton. unfold convert_uuid.
  rewrite Hlut. eexists. split; [reflexivity|]. simpl.
  rewrite write_contacts_rows, (right_id_L (∅ : gset string) (∪)), elements_singleton.
  done.
Qed.

End exporter_properties.

(** ** The properties on concrete inputs *)

Section examples.
Import Exporter.

(** The match values of a list resolve in the sample registry. *)
Ltac sample_resolves := vm_compute; repeat econstructor.

Lemma get_rqa_coding_plans_per_episode_sample :
  ∃ plans,
    @get_rqa_coding_plans Sample.library "SSF-SLD" = Ok plans
    ∧ Forall2 (@plan_of_episode Sample.library) plans (declared_episodes "SSF-SLD")
    ∧ length plans = 6.
Proof.
  apply (@get_rqa_coding_plans_per_episode Sample.library "SSF-SLD");
    [by right | sample_resolves].
Defined.

(** C2, as stated, fails on a text no cleaner matches: neither the
    sub-district nor the district is a code. *)
Lemma clean_district_neither_coded :
  @somali_clean_mogadishu_sub_district Sample.library "abc" = Codes.NOT_CODED
  ∧ @clean_district_if_no_mogadishu_sub_district Sample.library "abc" = Codes.NOT_CODED
  ∧ @exactly_one_coded Sample.library "abc" = false.
Proof. by vm_compute. Qed.

Lemma clean_district_at_most_one_coded_sample :
  @clean_district_if_no_mogadishu_sub_district Sample.library "hodan" = Codes.NOT_CODED
  ∧ @clean_district_if_no_mogadishu_sub_district Sample.library "baidoa" = "baidoa".
Proof.
  split.
  - destruct (@clean_district_at_most_one_coded Sample.library "hodan")
      as (Hsub & _).
    apply Hsub. discriminate.
  - destruct (@clean_district_at_most_one_coded Sample.library "baidoa")
      as (_ & Hdistrict & _).
    apply Hdistrict. reflexivity.
Defined.

Lemma clean_age_with_range_filter_sample :
  @clean_age_with_range_filter Sample.library "25" = "25"
  ∧ @clean_age_with_range_filter Sample.library "150" = Codes.NOT_CODED
  ∧ @clean_age_with_range_filter Sample.library "5" = Codes.NOT_CODED
  ∧ @clean_age_with_range_filter Sample.library "abc" = Codes.NOT_CODED.
Proof.
  destruct (@clean_age_with_range_filter_range Sample.library "25")
    as (_ & _ & H25 & H150 & H5 & Habc).
  split; [apply H25; reflexivity|]. split; [apply H150; reflexivity|].
  split; [apply H5; reflexivity | apply Habc; reflexivity].
Defined.

Lemma catalog_plans_unique_fields_sample :
  ∃ plans,
    @get_demog_coding_plans Sample.library "SSF-DCF" = Ok plans
    ∧ Forall (@unique_fields Sample.library) plans.
Proof.
  eexists. split; [reflexivity|].
  apply (@catalog_plans_unique_fields Sample.library "SSF-DCF").
  right. left. reflexivity.
Defined.

Lemma get_rqa_coding_plans_unknown_variant_sample :
  @get_rqa_coding_plans Sample.library "SSF-XYZ" = Raise AssertionError.
Proof.
  apply (@get_rqa_coding_plans_unknown_variant Sample.library "SSF-XYZ"); discriminate.
Defined.

Lemma get_demog_coding_plans_fixed_sample :
  ∃ plans,
    @get_demog_coding_plans Sample.library "SSF-SLD" = Ok plans
    ∧ length plans = 5
    ∧ raw_field <$> plans =
        [ "gender_raw"; "age_raw"; "recently_displaced_raw";
          "household_language_raw"; "location_raw" ].
Proof.
  destruct (@get_demog_coding_plans_fixed Sample.library "SSF-SLD" "SSF-DCF")
    as (_ & Hplans & _).
  destruct Hplans as (plans & Hok & Hlen & Hraw & _); [sample_resolves|].
  by exists plans.
Defined.

(** C7, as stated, fails when the identity table does not have the uuid:
    the contacts file has no row below the header. *)
Lemma two_files_unresolved_uid :
  ∃ out,
    main (Sample.table ∅) [[Sample.galmudug_row]; [Sample.galmudug_row]] = Ok out
    ∧ contacts out = [fieldnames]
    ∧ phone_number_rows out = []
    ∧ skipped out = {[ "avf-phone-uuid-1" ]}.
Proof. eexists. split; [by vm_compute|]. by vm_compute. Qed.

Lemma two_files_same_uid_sample :
  ∃ out,
    main (Sample.table {[ "avf-phone-uuid-1" := "252615000000" ]})
         [[Sample.galmudug_row]; [Sample.south_west_row]] = Ok out
    ∧ contacts out = [fieldnames; ["+252615000000"; ""]]
    ∧ skipped out = ∅
    ∧ reports out =
        [ {| found := 1; per_location := <["galmudug" := 1]> zero_counts;
             running_total := 1;
             running_per_location := <["galmudug" := 1]> zero_counts |};
          {| found := 1; per_location := <["south west state" := 1]> zero_counts;
             running_total := 1;
             running_per_location := <["galmudug" := 1]> zero_counts |} ].
Proof.
  apply (two_files_same_uid
           (Sample.table {[ "avf-phone-uuid-1" := "252615000000" ]})
           Sample.galmudug_row Sample.south_west_row
           "galmudug" "south west state" "avf-phone-uuid-1"
           (filter (λ entry, entry.1 ∈ ({[ "avf-phone-uuid-1" ]} : gset string))
                   {[ "avf-phone-uuid-1" := "252615000000" ]})
           "252615000000");
    by vm_compute.
Defined.

Lemma unresolved_uuid_skipped_sample :
  ∃ out,
    main (Sample.table {[ "avf-phone-uuid-2" := "252615000002" ]})
         [[Sample.galmudug_row; Sample.other_row]] = Ok out
    ∧ "avf-phone-uuid-1" ∈ skipped out
    ∧ size (skipped out) = 1
    ∧ phone_number_rows out = [["+252615000002"; ""]].
Proof.
  destruct (unresolved_uuid_skipped
              (Sample.table {[ "avf-phone-uuid-2" := "252615000002" ]})
              [[Sample.galmudug_row; Sample.other_row]]
              Sample.two_contacts
              [ {| found := 2; per_location := Sample.two_contacts.(location_counts);
                   running_total := 2;
                   running_per_location := Sample.two_contacts.(location_counts) |} ]
              (filter (λ entry, entry.1 ∈ uuids Sample.two_contacts)
                      {[ "avf-phone-uuid-2" := "252615000002" ]})
              "avf-phone-uuid-1")
    as (out & Hmain & Hin & _); [by vm_compute ..|].
  exists out. split; [done|]. split; [done|].
  vm_compute in Hmain. injection Hmain as <-. by vm_compute.
Defined.

Lemma search_row_without_uid_sample :
  search_row (start, new_file) Sample.no_uid_row = Ok (start, new_file).
Proof.
  apply (search_row_without_uid (start, new_file) Sample.no_uid_row) with "galmudug";
    by vm_compute.
Defined.

End examples.

(** * Further properties of the exporter *)

Section search_reference_properties.
Import Exporter.
#[local] Set Warnings "-clear-no-such-hyp".

Lemma contact_of_Some (row : gmap string string) (uid location : string) :
  contact_of row = Some (uid, location) ↔
  row !! "state" = Some location ∧ row !! "uid" = Some uid
  ∧ location ≠ Codes.STOP ∧ location ∈ TARGET_LOCATIONS.
Proof.
  unfold contact_of.
  destruct (row !! "state") as [l|]; [|by split; [|intros [? _]]].
  destruct (row !! "uid") as [u|]; [|by split; [|intros (_ & ? & _)]].
  case_decide as Hrow.
  - split.
    + intros [= -> ->]. by destruct Hrow.
    + by intros ([= ->] & [= ->] & _).
  - split; [done|]. intros ([= ->] & [= ->] & HSTOP & Hloc). by destruct Hrow.
Qed.

(** One row of the search, by the contact the row brings. *)
Lemma search_row_contact (tot : running) (cur : per_file)
    (row : gmap string string) (st' : running * per_file) :
  search_row (tot, cur) row = Ok st' →
  match contact_of row with
  | None => st' = (tot, cur)
  | Some (uid, location) =>
      uuids st'.1 = {[ uid ]} ∪ uuids tot
      ∧ file_uuids st'.2 = {[ uid ]} ∪ file_uuids cur
      ∧ location_counts st'.1
        = (if decide (uid ∈ uuids tot) then location_counts tot
           else alter S location (location_counts tot))
      ∧ file_location_counts st'.2
        = (if decide (uid ∈ file_uuids cur) then file_location_counts cur
           else alter S location (file_location_counts cur))
  end.
Proof.
  rewrite search_row_cases. unfold contact_of.
  destruct (row !! "state") as [location|]; [|done].
  destruct (decide (location = Codes.STOP)) as [HSTOP|HSTOP].
  { intros [= <-]. destruct (row !! "uid"); [|done].
    rewrite decide_False; [done | by intros [? _]]. }
  destruct (decide (location ∈ TARGET_LOCATIONS)) as [Hloc|Hloc]; last first.
  { intros [= <-]. destruct (row !! "uid"); [|done].
    rewrite decide_False; [done | by intros [_ ?]]. }
  destruct (row !! "uid") as [uid|]; [|by intros [= <-]].
  rewrite (decide_True (P := location ≠ Codes.STOP ∧ location ∈ TARGET_LOCATIONS))
    by done.
  intros Hrow. inv_bind Hrow. inv_bind Hrow. injection Hrow as <-. simpl.
  assert (∀ (seen : gset string) (counts counts' : gmap string nat),
    increment counts location = Ok counts' → counts' = alter S location counts)
    as Hincr.
  { intros seen counts counts'. unfold increment, getitem.
    destruct (counts !! location) as [c|] eqn:Hc; [|done]. intros [= <-].
    apply map_eq. intros l. rewrite lookup_alter, lookup_insert.
    destruct (decide (location = l)) as [<-|]; [|done].
    rewrite Hc. simpl. f_equal. lia. }
  destruct (decide (uid ∉ file_uuids cur)) as [Hcur|Hcur]; simpl in Ha.
  - inv_bind Ha. injection Ha as <-. simpl.
    rewrite (decide_False (P := uid ∈ file_uuids cur)) by done.
    apply (Hincr ∅) in Ha1 as ->.
    destruct (decide (uid ∉ uuids tot)) as [Htot|Htot]; simpl in Ha0.
    + inv_bind Ha0. injection Ha0 as <-. simpl.
      rewrite (decide_False (P := uid ∈ uuids tot)) by done.
      by apply (Hincr ∅) in Ha as ->.
    + injection Ha0 as <-. apply dec_stable in Htot.
      rewrite (decide_True (P := uid ∈ uuids tot)) by done.
      repeat split; try done. symmetry. by apply subseteq_union_1_L, singleton_subseteq_l.
  - injection Ha as <-. apply dec_stable in Hcur.
    rewrite (decide_True (P := uid ∈ file_uuids cur)) by done.
    assert (file_uuids cur = {[ uid ]} ∪ file_uuids cur) as Hsame.
    { symmetry. by apply subseteq_union_1_L, singleton_subseteq_l. }
    destruct (decide (uid ∉ uuids tot)) as [Htot|Htot]; simpl in Ha0.
    + inv_bind Ha0. injection Ha0 as <-. simpl.
      rewrite (decide_False (P := uid ∈ uuids tot)) by done.
      by apply (Hincr ∅) in Ha as ->.
    + injection Ha0 as <-. apply dec_stable in Htot.
      rewrite (decide_True (P := uid ∈ uuids tot)) by done.
      repeat split; try done. symmetry. by apply subseteq_union_1_L, singleton_subseteq_l.
Qed.

Lemma uids_of_cons (uid location : string) (found : list (string * string)) :
  uids_of ((uid, location) :: found) = {[ uid ]} ∪ uids_of found.
Proof. reflexivity. Qed.

Lemma uids_of_app (found1 found2 : list (string * string)) :
  uids_of (found1 ++ found2)%list = uids_of found1 ∪ uids_of found2.
Proof. unfold uids_of. by rewrite fmap_app, list_to_set_app_L. Qed.

Lemma elem_of_uids_of (uid : string) (found : list (string * string)) :
  uid ∈ uids_of found ↔ ∃ location, (uid, location) ∈ found.
Proof.
  unfold uids_of. rewrite elem_of_list_to_set, list_elem_of_fmap. split.
  - intros ([u l] & -> & Hin). by exists l.
  - intros [l Hin]. by exists (uid, l).
Qed.

Lemma count_at_cons (l uid location : string) (found : list (string * string)) :
  count_at l ((uid, location) :: found)
  = (if decide (location = l) then 1 else 0) + count_at l found.
Proof.
  unfold count_at. rewrite filter_cons. simpl. by case_decide.
Qed.

Lemma count_at_app (l : string) (found1 found2 : list (string * string)) :
  count_at l (found1 ++ found2)%list = count_at l found1 + count_at l found2.
Proof. unfold count_at. by rewrite filter_app, length_app. Qed.

Lemma first_occurrences_app (seen : gset string) (found1 found2 : list (string * string)) :
  first_occurrences seen (found1 ++ found2)%list
  = (first_occurrences seen found1
     ++ first_occurrences (uids_of found1 ∪ seen) found2)%list.
Proof.
  revert seen. induction found1 as [|[uid location] found1 IH]; intros seen; simpl.
  - f_equal. unfold uids_of. simpl. by rewrite (left_id_L ∅ (∪)).
  - rewrite uids_of_cons. case_decide as Hseen.
    + rewrite IH. do 2 f_equal.
      generalize (uids_of found1). intros X. set_solver.
    + simpl. rewrite IH. do 3 f_equal.
      generalize (uids_of found1). intros X. set_solver.
Qed.

(** Contacts whose uuids are all known bring no first occurrence. *)
Lemma first_occurrences_seen (seen : gset string) (found : list (string * string)) :
  uids_of found ⊆ seen → first_occurrences seen found = [].
Proof.
  induction found as [|[uid location] found IH]; simpl; [done|].
  rewrite uids_of_cons. intros Hsub.
  rewrite decide_True; [apply IH|].
  - intros u Hu. apply Hsub, elem_of_union_r, Hu.
  - apply Hsub, elem_of_union_l. by apply elem_of_singleton.
Qed.

(** One more contact in front, for a set of uuids and its counters. *)
Lemma tracked_step (seen seen1 seen' : gset string) (counts counts1 counts' : gmap string nat)
    (uid location : string) (found : list (string * string)) :
  seen1 = {[ uid ]} ∪ seen →
  counts1 = (if decide (uid ∈ seen) then counts else alter S location counts) →
  seen' = uids_of found ∪ seen1 →
  (∀ l, counts' !! l
        = (λ c, c + count_at l (first_occurrences seen1 found)) <$> counts1 !! l) →
  seen' = uids_of ((uid, location) :: found) ∪ seen
  ∧ ∀ l, counts' !! l
         = (λ c, c + count_at l (first_occurrences seen ((uid, location) :: found)))
           <$> counts !! l.
Proof.
  intros -> -> -> Hcounts. split.
  - rewrite uids_of_cons.
    by rewrite (assoc_L (∪)), (comm_L (∪) (uids_of found)).
  - intros l. rewrite Hcounts. simpl. destruct (decide (uid ∈ seen)) as [Hseen|Hseen].
    + by rewrite (subseteq_union_1_L {[ uid ]} seen) by by apply singleton_subseteq_l.
    + rewrite lookup_alter, count_at_cons.
      destruct (decide (location = l)) as [->|Hl].
      * destruct (counts !! l); simpl; [f_equal; lia | done].
      * by destruct (counts !! l).
Qed.

(** The rows of a file, as the contacts they bring: the sets take the uuids
    of the contacts, and each counter goes up by the number of first
    occurrences at its location. *)
Lemma search_rows_contacts (rows : list (gmap string string)) (st st' : running * per_file) :
  for_each search_row st rows = Ok st' →
  uuids st'.1 = uids_of (contacts_of rows) ∪ uuids st.1
  ∧ (∀ l, location_counts st'.1 !! l
          = (λ c, c + count_at l (first_occurrences (uuids st.1) (contacts_of rows)))
            <$> location_counts st.1 !! l)
  ∧ file_uuids st'.2 = uids_of (contacts_of rows) ∪ file_uuids st.2
  ∧ (∀ l, file_location_counts st'.2 !! l
          = (λ c, c + count_at l (first_occurrences (file_uuids st.2) (contacts_of rows)))
            <$> file_location_counts st.2 !! l).
Proof.
  revert st. induction rows as [|row rows IH]; intros [tot cur] Hrows; simpl in Hrows.
  - injection Hrows as <-. unfold contacts_of, uids_of, count_at. simpl.
    rewrite !(left_id_L ∅ (∪)).
    repeat split; try done; intros l.
    + destruct (location_counts tot !! l); simpl; [f_equal; lia | done].
    + destruct (file_location_counts cur !! l); simpl; [f_equal; lia | done].
  - inv_bind Hrows. apply search_row_contact in Ha.
    apply IH in Hrows as (Hu & Hc & Hfu & Hfc).
    unfold contacts_of in *. simpl omap.
    destruct (contact_of row) as [[uid location]|].
    + destruct Ha as (Hu1 & Hfu1 & Hc1 & Hfc1).
      destruct (tracked_step _ _ _ _ _ _ uid location _ Hu1 Hc1 Hu Hc) as [-> Hc'].
      destruct (tracked_step _ _ _ _ _ _ uid location _ Hfu1 Hfc1 Hfu Hfc) as [-> Hfc'].
      done.
    + by subst a.
Qed.

Lemma counts_of_lookup (found : list (string * string)) (l : string) :
  counts_of found !! l
  = if decide (l ∈ TARGET_LOCATIONS) then Some (count_at l found) else None.
Proof.
  unfold counts_of. rewrite map_lookup_imap. case_decide as Hl.
  - by rewrite (zero_counts_lookup l Hl).
  - unfold zero_counts. by rewrite (proj2 (lookup_gset_to_gmap_None 0 _ l) Hl).
Qed.

Lemma zero_counts_lookup_cases (l : string) :
  zero_counts !! l = if decide (l ∈ TARGET_LOCATIONS) then Some 0 else None.
Proof.
  case_decide as Hl.
  - by apply zero_counts_lookup.
  - unfold zero_counts. by apply lookup_gset_to_gmap_None.
Qed.

Lemma reference_running_nil : reference_running [] = start.
Proof.
  unfold reference_running, start. by f_equal.
Qed.

Lemma contacts_of_app (rows1 rows2 : list (gmap string string)) :
  contacts_of (rows1 ++ rows2)%list = (contacts_of rows1 ++ contacts_of rows2)%list.
Proof. apply omap_app. Qed.

(** A file all of whose rows have a state, read from the running totals of
    the contacts [before]. *)
Lemma search_data_reference (before : list (string * string))
    (data : list (gmap string string)) :
  counted (uids_of before) (counts_of (first_occurrences ∅ before)) →
  Forall has_state data →
  search_data (reference_running before) data
  = Ok (reference_running (before ++ contacts_of data)%list,
        {| file_uuids := uids_of (contacts_of data);
           file_location_counts := counts_of (first_occurrences ∅ (contacts_of data)) |}).
Proof.
  intros Hbefore Hstate. unfold search_data.
  destruct (search_rows_total data (reference_running before, new_file))
    as [st Hst]; [split; [done | apply counted_start] | done |].
  rewrite Hst. f_equal.
  apply search_rows_contacts in Hst as (Hu & Hc & Hfu & Hfc).
  destruct st as [[u c] [fu fc]]. simpl in *. subst u fu.
  f_equal; unfold reference_running; f_equal.
  - rewrite uids_of_app. apply (comm_L (∪)).
  - apply map_eq. intros l. rewrite Hc, !counts_of_lookup.
    case_decide; [simpl|done].
    by rewrite first_occurrences_app, count_at_app, (right_id_L ∅ (∪)).
  - apply (right_id_L ∅ (∪)).
  - apply map_eq. intros l. rewrite Hfc, counts_of_lookup, zero_counts_lookup_cases.
    by case_decide.
Qed.

Lemma search_files_reference_from (files : list (list (gmap string string)))
    (before : list (string * string)) (logged : list file_report) :
  counted (uids_of before) (counts_of (first_occurrences ∅ before)) →
  Forall (Forall has_state) files →
  for_each search_file (reference_running before, logged) files
  = Ok (reference_running (before ++ contacts_of (concat files))%list,
        (logged ++ reference_reports before files)%list).
Proof.
  revert before logged.
  induction files as [|data files IH]; intros before logged Hbefore Hstate; simpl.
  - unfold contacts_of. simpl. by rewrite !(right_id_L [] app).
  - apply Forall_cons in Hstate as [Hdata Hstate].
    pose proof (search_data_reference before data Hbefore Hdata) as Hsearch.
    rewrite (search_file_Ok (reference_running before, logged) data _ Hsearch).
    simpl. apply search_data_invariant in Hsearch as [Hrun _]; [|done].
    rewrite (IH _ _ Hrun Hstate).
    rewrite contacts_of_app, <-!(assoc_L app). done.
Qed.

(** The search of files all of whose rows have a state is the reference. *)
Lemma search_files_reference (files : list (list (gmap string string))) :
  Forall (Forall has_state) files →
  search_files files = Ok (reference_search files).
Proof.
  intros Hstate. unfold search_files, reference_search.
  pose proof (search_files_reference_from files [] [] counted_start Hstate) as Href.
  by rewrite reference_running_nil in Href.
Qed.

(** A row without a state column makes the search raise, on that column. *)
Lemma search_rows_missing_state (rows : list (gmap string string))
    (st : running * per_file) :
  search_invariant st → ¬ Forall has_state rows →
  for_each search_row st rows = Raise (KeyError "state").
Proof.
  revert st. induction rows as [|row rows IH]; intros st Hinv Hmissing; simpl.
  - destruct Hmissing. constructor.
  - pose proof (search_row_invariant st row Hinv) as Hrow.
    destruct (row !! "state") as [location|] eqn:Hstate.
    + destruct Hrow as (st1 & -> & Hinv1). simpl. apply IH; [done|].
      intros Hrows. apply Hmissing. constructor; [by exists location | done].
    + by rewrite Hrow.
Qed.

Lemma search_files_missing_state_from (files : list (list (gmap string string)))
    (acc : running * list file_report) :
  counted (uuids acc.1) (location_counts acc.1) →
  ¬ Forall (Forall has_state) files →
  for_each search_file acc files = Raise (KeyError "state").
Proof.
  revert acc. induction files as [|data files IH]; intros acc Hacc Hmissing; simpl.
  - destruct Hmissing. constructor.
  - destruct (decide (Forall has_state data)) as [Hdata|Hdata].
    + destruct (search_rows_total data (acc.1, new_file)) as [st Hst];
        [split; [done | apply counted_start] | done |].
      rewrite (search_file_Ok acc data st Hst). simpl.
      apply IH; simpl.
      * by apply (search_data_invariant acc.1 data st Hacc).
      * intros Hfiles. apply Hmissing. by constructor.
    + unfold search_file, search_data.
      rewrite search_rows_missing_state; [done | | done].
      split; [done | apply counted_start].
Qed.

Lemma convert_uuids_reference (lut : gmap string string) (seen : gset string) :
  convert_uuids lut seen
  = (reference_phone_numbers lut seen, reference_skipped lut seen).
Proof.
  destruct (convert_uuids_spec lut seen) as [Hphones Hskipped].
  destruct (convert_uuids lut seen) as [phone_numbers skipped_uuids].
  simpl in *. f_equal; apply set_eq.
  - intros n. rewrite Hphones. unfold reference_phone_numbers.
    rewrite elem_of_list_to_set, list_elem_of_fmap. split.
    + intros (uuid & data & Hin & Hlut & ->). exists data. split; [done|].
      apply list_elem_of_omap. exists uuid. by rewrite elem_of_elements.
    + intros (data & -> & (uuid & Hin%elem_of_elements & Hlut)%list_elem_of_omap).
      by exists uuid, data.
  - intros uuid. rewrite Hskipped. unfold reference_skipped.
    by rewrite elem_of_difference, not_elem_of_dom.
Qed.

Lemma main_reference (phone_number_uuid_table : FirestoreUuidTable)
    (files : list (list (gmap string string))) :
  main phone_number_uuid_table files
  = if decide (Forall (Forall has_state) files) then
      lut ← uuid_to_data_batch phone_number_uuid_table
              (uids_of (contacts_of (concat files)));
      mret (reference_export lut files)
    else Raise (KeyError "state").
Proof.
  unfold main. case_decide as Hstate.
  - rewrite (search_files_reference files Hstate). unfold reference_search. simpl.
    destruct (uuid_to_data_batch _ _) as [lut|e]; simpl; [|done].
    by rewrite convert_uuids_reference.
  - unfold search_files.
    by rewrite search_files_missing_state_from by (done || apply counted_start).
Qed.

Lemma search_files_Ok_inv (files : list (list (gmap string string)))
    (r : running * list file_report) :
  search_files files = Ok r →
  Forall (Forall has_state) files ∧ r = reference_search files.
Proof.
  intros Hsearch. destruct (decide (Forall (Forall has_state) files)) as [Hstate|Hstate].
  - rewrite (search_files_reference files Hstate) in Hsearch. by injection Hsearch as <-.
  - unfold search_files in Hsearch.
    by rewrite search_files_missing_state_from in Hsearch
      by (done || apply counted_start).
Qed.

Lemma length_reference_reports (before : list (string * string))
    (files : list (list (gmap string string))) :
  length (reference_reports before files) = length files.
Proof.
  revert before. induction files as [|data files IH]; intros before; simpl; [done|].
  by rewrite IH.
Qed.

Lemma reference_reports_app (before : list (string * string))
    (files1 files2 : list (list (gmap string string))) :
  reference_reports before (files1 ++ files2)%list
  = (reference_reports before files1
     ++ reference_reports (before ++ contacts_of (concat files1))%list files2)%list.
Proof.
  revert before. induction files1 as [|data files1 IH]; intros before; simpl.
  - unfold contacts_of. simpl. by rewrite (right_id_L [] app).
  - f_equal. by rewrite IH, contacts_of_app, <-(assoc_L app).
Qed.

Lemma elem_of_contacts_of_concat (files : list (list (gmap string string)))
    (uid location : string) :
  (uid, location) ∈ contacts_of (concat files) ↔
  ∃ data row, data ∈ files ∧ row ∈ data ∧ contact_of row = Some (uid, location).
Proof.
  unfold contacts_of. rewrite list_elem_of_omap. split.
  - intros (row & Hrow & Hcontact).
    apply list_elem_of_In, in_concat in Hrow as (data & Hdata & Hrow).
    exists data, row. by rewrite !list_elem_of_In.
  - intros (data & row & Hdata & Hrow & Hcontact). exists row. split; [|done].
    apply list_elem_of_In, in_concat. exists data. by rewrite <-!list_elem_of_In.
Qed.

(** X1. The search of the input files is the reference search when every
    row has a [state] column, and raises [KeyError] on [state] otherwise:
    the running set holds the uuids of the rows in target locations, each
    running counter the number of uuids first met at its location, and
    there is a report for each file, with the same numbers for the file
    alone and for the files read so far. *)
Theorem search_files_refines (files : list (list (gmap string string))) :
  search_files files
  = if decide (Forall (Forall has_state) files) then Ok (reference_search files)
    else Raise (KeyError "state").
Proof.
  case_decide as Hstate.
  - by apply search_files_reference.
  - apply search_files_missing_state_from; [apply counted_start | done].
Qed.

(** X2. The script agrees with the reference export: when every row has
    a [state] column and the lookup succeeds, it returns the reports, the
    phone numbers and the skipped uuids of the reference, and a contacts
    file with the header and the rows of the reference, in whatever order;
    it raises [KeyError] on [state] when a row has no such column, and the
    error of the lookup when that fails. *)
Theorem main_refines (phone_number_uuid_table : FirestoreUuidTable)
    (files : list (list (gmap string string))) :
  if decide (Forall (Forall has_state) files) then
    match uuid_to_data_batch phone_number_uuid_table
            (uids_of (contacts_of (concat files))) with
    | Ok lut =>
        ∃ out, main phone_number_uuid_table files = Ok out
               ∧ same_export out (reference_export lut files)
    | Raise e => main phone_number_uuid_table files = Raise e
    end
  else main phone_number_uuid_table files = Raise (KeyError "state").
Proof.
  rewrite main_reference. case_decide; [|done].
  destruct (uuid_to_data_batch _ _) as [lut|e]; simpl; [|done].
  eexists. split; [reflexivity|]. by repeat split.
Qed.

(** X3. After the search, [uuids] holds exactly the [uid]s of the rows
    whose state is a target location, and one report was logged for each
    file. *)
Theorem search_files_uuids (files : list (list (gmap string string)))
    (tot : running) (logged : list file_report) :
  search_files files = Ok (tot, logged) →
  length logged = length files
  ∧ ∀ uid, uid ∈ uuids tot ↔
      ∃ data row location,
        data ∈ files ∧ row ∈ data ∧ row !! "state" = Some location
        ∧ location ∈ TARGET_LOCATIONS ∧ row !! "uid" = Some uid.
Proof.
  intros [_ [= -> ->]]%search_files_Ok_inv. split.
  - apply length_reference_reports.
  - intros uid. simpl. rewrite elem_of_uids_of. split.
    + intros (location & (data & row & Hdata & Hrow & Hcontact)%elem_of_contacts_of_concat).
      apply contact_of_Some in Hcontact as (Hstate & Huid & _ & Hloc).
      by exists data, row, location.
    + intros (data & row & location & Hdata & Hrow & Hstate & Hloc & Huid).
      exists location. apply elem_of_contacts_of_concat. exists data, row.
      repeat split; try done. apply contact_of_Some.
      repeat split; try done. by apply target_location_not_STOP.
Qed.





Lemma uids_of_same_rows (files files' : list (list (gmap string string))) :
  (∀ row, row ∈ concat files ↔ row ∈ concat files') →
  uids_of (contacts_of (concat files)) = uids_of (contacts_of (concat files')).
Proof.
  intros Hrows. apply set_eq. intros uid. rewrite !elem_of_uids_of.
  unfold contacts_of. setoid_rewrite list_elem_of_omap.
  split; intros (location & row & Hrow & Hcontact); exists location, row.
  - split; [by apply Hrows | done].
  - split; [by apply Hrows | done].
Qed.

Lemma has_state_same_rows (files files' : list (list (gmap string string))) :
  (∀ row, row ∈ concat files ↔ row ∈ concat files') →
  Forall (Forall has_state) files → Forall (Forall has_state) files'.
Proof.
  intros Hrows Hstate. apply Forall_concat, Forall_forall.
  intros row Hrow%Hrows.
  apply Forall_concat in Hstate. by apply (proj1 (Forall_forall _ _) Hstate).
Qed.

(** X5. The contacts depend on the rows only, not on their order nor on
    the files they are in: two inputs with the same rows give the same
    phone numbers, the same skipped uuids, and contacts files with the
    same header and the same rows, in whatever order. *)
Theorem main_depends_on_rows_only (phone_number_uuid_table : FirestoreUuidTable)
    (files files' : list (list (gmap string string))) (out : export) :
  (∀ row, row ∈ concat files ↔ row ∈ concat files') →
  main phone_number_uuid_table files = Ok out →
  ∃ out',
    main phone_number_uuid_table files' = Ok out'
    ∧ converted out' = converted out
    ∧ skipped out' = skipped out
    ∧ head (contacts out') = head (contacts out)
    ∧ phone_number_rows out' ≡ₚ phone_number_rows out.
Proof.
  intros Hrows. rewrite !main_reference.
  case_decide as Hstate; [|done].
  rewrite (decide_True (P := Forall (Forall has_state) files'))
    by by apply (has_state_same_rows files).
  rewrite <-(uids_of_same_rows files files' Hrows).
  destruct (uuid_to_data_batch _ _) as [lut|e]; simpl; [|done].
  intros [= <-]. eexists. split; [done|].
  unfold reference_export, phone_number_rows. simpl.
  by rewrite <-(uids_of_same_rows files files' Hrows).
Qed.

(** Files that bring no uuid beyond those of [before] leave the running
    numbers of every report where they were. *)
Lemma reference_reports_seen (before : list (string * string))
    (files : list (list (gmap string string))) :
  uids_of (contacts_of (concat files)) ⊆ uids_of before →
  Forall (λ r, running_total r = size (uids_of before)
               ∧ running_per_location r = counts_of (first_occurrences ∅ before))
         (reference_reports before files).
Proof.
  revert before. induction files as [|data files IH]; intros before Hsub; simpl.
  - constructor.
  - rewrite concat_cons, contacts_of_app, uids_of_app in Hsub.
    assert (uids_of (contacts_of data) ⊆ uids_of before) as Hdata.
    { intros u Hu. apply Hsub, elem_of_union_l, Hu. }
    assert (uids_of (before ++ contacts_of data)%list = uids_of before) as Huids.
    { rewrite uids_of_app, (comm_L (∪)). by apply subseteq_union_1_L. }
    assert (first_occurrences ∅ (before ++ contacts_of data)%list
            = first_occurrences ∅ before) as Hfirst.
    { rewrite first_occurrences_app.
      rewrite (first_occurrences_seen (uids_of before ∪ ∅))
        by by rewrite (right_id_L ∅ (∪)).
      apply (right_id_L [] app). }
    constructor.
    + simpl. by rewrite Huids, Hfirst.
    + rewrite <-Huids, <-Hfirst. apply IH. rewrite Huids.
      intros u Hu. apply Hsub, elem_of_union_r, Hu.
Qed.

(** X6. Reading the same files a second time adds nothing: the running
    totals after the second pass are those after the first, and every
    report of the second pass shows these running totals. *)
Theorem search_files_twice (files : list (list (gmap string string)))
    (tot : running) (logged : list file_report) :
  search_files files = Ok (tot, logged) →
  ∃ logged',
    search_files (files ++ files)%list = Ok (tot, (logged ++ logged')%list)
    ∧ length logged' = length files
    ∧ Forall (λ r, running_total r = size (uuids tot)
                   ∧ running_per_location r = location_counts tot) logged'.
Proof.
  intros [Hstate [= -> ->]]%search_files_Ok_inv.
  exists (reference_reports (contacts_of (concat files)) files).
  rewrite search_files_reference by by apply Forall_app.
  unfold reference_search.
  rewrite reference_reports_app, concat_app, contacts_of_app. simpl.
  split; [|split].
  - do 2 f_equal. unfold reference_running. f_equal.
    + rewrite uids_of_app. apply (idemp_L (∪)).
    + rewrite first_occurrences_app.
      rewrite (first_occurrences_seen (uids_of (contacts_of (concat files)) ∪ ∅))
        by by rewrite (right_id_L ∅ (∪)).
      by rewrite (right_id_L [] app).
  - apply length_reference_reports.
  - by apply reference_reports_seen.
Qed.

(** The numbers of the reports: each file finds no more than the run has
    found, and the run never loses a contact. *)
Lemma reference_reports_bounds (before : list (string * string))
    (files : list (list (gmap string string))) :
  Forall (λ r, (found r ≤ running_total r
                ∧ size (uids_of before) ≤ running_total r
                ∧ running_total r
                  ≤ size (uids_of (before ++ contacts_of (concat files))%list))%nat)
         (reference_reports before files)
  ∧ StronglySorted (λ r1 r2, (running_total r1 ≤ running_total r2)%nat)
                   (reference_reports before files).
Proof.
  revert before. induction files as [|data files IH]; intros before;
    cbn [reference_reports].
  - split; constructor.
  - destruct (IH (before ++ contacts_of data)%list) as [Hbounds Hsorted].
    rewrite concat_cons, contacts_of_app, (assoc_L app).
    split.
    + constructor.
      * simpl. repeat split; apply subseteq_size; rewrite !uids_of_app;
          [apply union_subseteq_r | apply union_subseteq_l | apply union_subseteq_l].
      * eapply Forall_impl; [exact Hbounds|]. simpl.
        intros r (Hfound & Hlow & Hhigh). repeat split; [done | | done].
        etrans; [|exact Hlow]. apply subseteq_size. rewrite uids_of_app.
        apply union_subseteq_l.
    + constructor; [done|].
      eapply Forall_impl; [exact Hbounds|]. simpl. by intros r (_ & Hlow & _).
Qed.

(** X7. In the reports of a run, the number of contacts found in a file
    is at most the running total shown with it, the running totals never
    go down from one report to the next, and none exceeds the final number
    of uuids. *)
Theorem search_files_reports_bounded (files : list (list (gmap string string)))
    (tot : running) (logged : list file_report) :
  search_files files = Ok (tot, logged) →
  Forall (λ r, (found r ≤ running_total r ∧ running_total r ≤ size (uuids tot))%nat)
         logged
  ∧ StronglySorted (λ r1 r2, (running_total r1 ≤ running_total r2)%nat) logged.
Proof.
  intros [_ [= -> ->]]%search_files_Ok_inv.
  destruct (reference_reports_bounds [] files) as [Hbounds Hsorted].
  split; [|done].
  eapply Forall_impl; [exact Hbounds|]. simpl. by intros r (Hfound & _ & Hhigh).
Qed.

Lemma distinct_numbers_subseteq (lut : gmap string string) (X Y : gset string) :
  X ⊆ Y → distinct_numbers lut Y → distinct_numbers lut X.
Proof.
  intros Hsub Hdistinct uuid1 uuid2 data Hin1 Hin2.
  apply Hdistinct; by apply Hsub.
Qed.

(** The sizes of what the loop over the uuids builds, with what it needs
    of the contents. *)
Lemma convert_uuids_sizes_fold (lut : gmap string string) (seen : gset string) :
  (∀ n, n ∈ (convert_uuids lut seen).1 →
        ∃ uuid data, uuid ∈ seen ∧ lut !! uuid = Some data ∧ n = "+" +:+ data)
  ∧ (convert_uuids lut seen).2 ⊆ seen
  ∧ (size (convert_uuids lut seen).1 + size (convert_uuids lut seen).2 ≤ size seen)%nat
  ∧ (distinct_numbers lut seen →
     size (convert_uuids lut seen).1 + size (convert_uuids lut seen).2 = size seen).
Proof.
  unfold convert_uuids.
  apply (set_fold_ind_L (λ acc (X : gset string),
    (∀ n, n ∈ acc.1 → ∃ uuid data, uuid ∈ X ∧ lut !! uuid = Some data
                                     ∧ n = "+" +:+ data)
    ∧ acc.2 ⊆ X
    ∧ (size acc.1 + size acc.2 ≤ size X)%nat
    ∧ (distinct_numbers lut X → size acc.1 + size acc.2 = size X))).
  - cbn [fst snd]. rewrite !size_empty. repeat split; done.
  - intros x X [phone_numbers skipped_uuids] Hx (Hphones & Hskipped & Hle & Heq).
    cbn [fst snd] in Hphones, Hskipped, Hle, Heq.
    unfold convert_uuid.
    rewrite (size_union {[ x ]} X), size_singleton by by apply disjoint_singleton_l.
    destruct (lut !! x) as [data|] eqn:Hlut; cbn [fst snd].
    + split; [|split; [|split]].
      * intros n [->%elem_of_singleton | Hn]%elem_of_union.
        -- exists x, data. split; [|done]. apply elem_of_union_l. by apply elem_of_singleton.
        -- destruct (Hphones n Hn) as (uuid & d & Hin & Hd & ->).
           exists uuid, d. split; [|done]. by apply elem_of_union_r.
      * intros u Hu. by apply elem_of_union_r, Hskipped.
      * rewrite size_union_alt, size_singleton.
        assert (size (phone_numbers ∖ {[ "+" +:+ data ]}) ≤ size phone_numbers)%nat
          by (apply subseteq_size; intros n [Hn _]%elem_of_difference; exact Hn).
        lia.
      * intros Hdistinct.
        assert ("+" +:+ data ∉ phone_numbers) as Hfresh.
        { intros (uuid & d & Hin & Hd & Hsame)%Hphones.
          change (String "+" data = String "+" d) in Hsame. injection Hsame as ->.
          apply Hx. replace x with uuid; [done|].
          apply (Hdistinct uuid x d); [by apply elem_of_union_r | | done | done].
          apply elem_of_union_l. by apply elem_of_singleton. }
        rewrite size_union, size_singleton by by apply disjoint_singleton_l.
        rewrite <-Heq; [lia|].
        apply (distinct_numbers_subseteq lut X ({[ x ]} ∪ X)); [|done].
        apply union_subseteq_r.
    + assert (x ∉ skipped_uuids) as Hfresh by (intros Hin; by apply Hx, Hskipped).
      rewrite (size_union {[ x ]} skipped_uuids), size_singleton
        by by apply disjoint_singleton_l.
      split; [|split; [|split]].
      * intros n Hn. destruct (Hphones n Hn) as (uuid & d & Hin & Hd & ->).
        exists uuid, d. split; [|done]. by apply elem_of_union_r.
      * intros u [->%elem_of_singleton | Hu]%elem_of_union.
        -- apply elem_of_union_l. by apply elem_of_singleton.
        -- by apply elem_of_union_r, Hskipped.
      * lia.
      * intros Hdistinct. rewrite <-Heq; [lia|].
        apply (distinct_numbers_subseteq lut X ({[ x ]} ∪ X)); [|done].
        apply union_subseteq_r.
Qed.

(** X8. The loop over the uuids splits them: the skipped ones are those
    the lookup result does not have, and the phone numbers and the skipped
    uuids are together no more than the uuids. They are as many when no two
    uuids have the same phone number; two uuids with one phone number give
    one contact. *)
Theorem convert_uuids_sizes (lut : gmap string string) (seen : gset string) :
  (convert_uuids lut seen).2 = seen ∖ dom lut
  ∧ (size (convert_uuids lut seen).1 + size (convert_uuids lut seen).2 ≤ size seen)%nat
  ∧ (distinct_numbers lut seen →
     size (convert_uuids lut seen).1 + size (convert_uuids lut seen).2 = size seen).
Proof.
  split; [by rewrite convert_uuids_reference|].
  by destruct (convert_uuids_sizes_fold lut seen) as (_ & _ & Hle & Heq).
Qed.

#[local] Instance contact_row_inj : Inj (=) (=) (λ n : string, [n; ""]).
Proof. by intros n1 n2 [= ->]. Qed.

(** X9. The contacts file of a run: the header, then a row for each phone
    number and no other, no row twice, each row a number that begins with
    [+] and an empty name. *)
Theorem main_contacts_wellformed (phone_number_uuid_table : FirestoreUuidTable)
    (files : list (list (gmap string string))) (out : export) :
  main phone_number_uuid_table files = Ok out →
  contacts out = fieldnames :: phone_number_rows out
  ∧ NoDup (phone_number_rows out)
  ∧ length (phone_number_rows out) = size (converted out)
  ∧ (∀ row, row ∈ phone_number_rows out ↔ ∃ n, n ∈ converted out ∧ row = [n; ""])
  ∧ (∀ n, n ∈ converted out → ∃ data, n = String "+" data).
Proof.
  rewrite main_reference. case_decide; [|done].
  destruct (uuid_to_data_batch _ _) as [lut|e]; simpl; [|done].
  intros [= <-]. unfold phone_number_rows, reference_export. simpl.
  split; [done|]. split; [|split; [|split]].
  - apply (NoDup_fmap_2 (λ n : string, [n; ""])), NoDup_elements.
  - by rewrite length_fmap.
  - intros row. rewrite list_elem_of_fmap. setoid_rewrite elem_of_elements.
    split; intros (n & ? & ?); by exists n.
  - intros n. unfold reference_phone_numbers.
    rewrite elem_of_list_to_set, list_elem_of_fmap. intros (data & -> & _).
    by exists data.
Qed.

Lemma first_location_uids_of (found : list (string * string)) (uid location : string) :
  first_location found uid = Some location → uid ∈ uids_of found.
Proof.
  induction found as [|[u l] found IH]; simpl; [done|].
  rewrite uids_of_cons, elem_of_union, elem_of_singleton.
  case_decide; [by left | right; by apply IH].
Qed.

(** The first occurrences are the contacts that give the first location of
    a uuid not met before. *)
Lemma elem_of_first_occurrences (seen : gset string) (found : list (string * string))
    (uid location : string) :
  (uid, location) ∈ first_occurrences seen found ↔
  (uid ∉ seen) ∧ first_location found uid = Some location.
Proof.
  revert seen. induction found as [|[u l] found IH]; intros seen; simpl.
  - rewrite elem_of_nil. by split; [|intros [_ ?]].
  - destruct (decide (u ∈ seen)) as [Hseen|Hseen].
    + rewrite IH. destruct (decide (u = uid)) as [->|Hne]; [|done].
      by split; intros [? _].
    + rewrite elem_of_cons, IH, not_elem_of_union, elem_of_singleton.
      destruct (decide (u = uid)) as [->|Hne].
      * split.
        -- intros [Hhere | [[Habs _] _]]; [|by destruct Habs].
           split; [done|]. congruence.
        -- intros [_ Hl]. left. congruence.
      * split.
        -- intros [Hhere | [[_ Hnew] Hfirst]]; [congruence | done].
        -- intros [Hnew Hfirst]. right. by repeat split.
Qed.

Lemma NoDup_first_occurrences (seen : gset string) (found : list (string * string)) :
  NoDup ((first_occurrences seen found).*1).
Proof.
  revert seen. induction found as [|[u l] found IH]; intros seen; simpl.
  - constructor.
  - case_decide as Hseen; [apply IH|].
    rewrite fmap_cons. simpl. constructor; [|apply IH].
    intros ([u' l'] & Hu & Hin)%list_elem_of_fmap. simpl in Hu. subst u'.
    apply elem_of_first_occurrences in Hin as [Hnew _].
    apply Hnew, elem_of_union_l. by apply elem_of_singleton.
Qed.

(** A counter of the reference is the number of uuids whose first contact
    is at its location. *)
Lemma count_at_first_occurrences (found : list (string * string)) (location : string) :
  count_at location (first_occurrences ∅ found) = size (first_at found location).
Proof.
  unfold count_at.
  set (here := filter (λ contact : string * string, contact.2 = location)
                      (first_occurrences ∅ found)).
  assert (NoDup (here.*1)) as Hnodup.
  { apply (sublist_NoDup _ ((first_occurrences ∅ found).*1));
      [apply NoDup_first_occurrences|].
    apply fmap_sublist, sublist_filter. }
  rewrite <-(length_fmap fst here), <-(size_list_to_set (C := gset string)) by done.
  f_equal. apply set_eq. intros uid.
  unfold first_at. rewrite elem_of_list_to_set, elem_of_filter, list_elem_of_fmap.
  split.
  - intros ([u l] & -> & [Hl Hin]%list_elem_of_filter). simpl in *. subst l.
    apply elem_of_first_occurrences in Hin as [_ Hfirst].
    split; [done|]. by apply (first_location_uids_of _ _ location).
  - intros [Hfirst _]. exists (uid, location). split; [done|].
    apply list_elem_of_filter. split; [done|].
    apply elem_of_first_occurrences. split; [apply not_elem_of_empty | done].
Qed.

(** C10. At every point of the search, that is after any number of files
    and any rows of the next one: the running counters add up to the size
    of [uuids] and the counters of the file add up to the size of
    [file_uuids], and the reports logged after each file add up likewise;
    [uuids] holds the uuids of the rows counted so far and [file_uuids]
    those of the rows of the file; and each uuid is counted once, at the
    location of its first occurrence: the running counter of a target
    location is the number of uuids whose first counted row, over the files
    in order, is at that location, and the counter of the file is that
    number for the rows of the file. *)
Theorem search_counters_match_sets (files : list (list (gmap string string)))
    (rows : list (gmap string string)) (tot : running) (logged : list file_report)
    (st : running * per_file) :
  search_files files = Ok (tot, logged) →
  search_data tot rows = Ok st →
  total (location_counts st.1) = size (uuids st.1)
  ∧ total (file_location_counts st.2) = size (file_uuids st.2)
  ∧ Forall report_adds_up logged
  ∧ uuids st.1 = uids_of (contacts_of (concat files ++ rows)%list)
  ∧ file_uuids st.2 = uids_of (contacts_of rows)
  ∧ ∀ location, location ∈ TARGET_LOCATIONS →
      location_counts st.1 !! location
      = Some (size (first_at (contacts_of (concat files ++ rows)%list) location))
      ∧ file_location_counts st.2 !! location
        = Some (size (first_at (contacts_of rows) location)).
Proof.
  intros Hfiles Hrows.
  pose proof Hfiles as [_ [= -> ->]]%search_files_Ok_inv.
  apply search_files_invariant in Hfiles as [Htot Hlogged];
    [| apply counted_start | constructor].
  pose proof (search_data_invariant _ _ _ Htot Hrows) as [[_ Hrun] [_ Hfile]].
  unfold search_data in Hrows.
  apply search_rows_contacts in Hrows as (Hu & Hc & Hfu & Hfc).
  cbn [fst snd uuids location_counts file_uuids file_location_counts
       reference_running new_file] in Hu, Hc, Hfu, Hfc.
  split; [done|]. split; [done|]. split; [done|]. split; [|split].
  - rewrite Hu, contacts_of_app, uids_of_app. apply (comm_L (∪)).
  - rewrite Hfu. apply (right_id_L ∅ (∪)).
  - intros location Hloc. split.
    + rewrite Hc, counts_of_lookup, decide_True by done. simpl. f_equal.
      rewrite <-count_at_first_occurrences, contacts_of_app.
      by rewrite first_occurrences_app, count_at_app, (right_id_L ∅ (∪)).
    + rewrite Hfc, (zero_counts_lookup location Hloc). simpl. f_equal.
      by rewrite <-count_at_first_occurrences.
Qed.

End search_reference_properties.

(** * Further properties of the catalogs *)

Section catalog_further_properties.
Context `{CoreDataModules}.

Lemma first_unresolved_resolved (v : string) (vs : list string) :
  resolves v → first_unresolved (v :: vs) = first_unresolved vs.
Proof.
  intros Hv. unfold first_unresolved. rewrite filter_cons.
  rewrite decide_False; [done|]. by intros Hnot.
Qed.

Lemma first_unresolved_missing (v : string) (vs : list string) :
  ¬ resolves v → first_unresolved (v :: vs) = Some v.
Proof.
  intros Hv. unfold first_unresolved. rewrite filter_cons.
  by rewrite decide_True.
Qed.

Lemma ws_correct_dataset_code_cases (v : string) :
  (resolves v ∧ ∃ code, ws_correct_dataset_code v = Ok code)
  ∨ (¬ resolves v ∧ ws_correct_dataset_code v = Raise (MissingMatchValue v)).
Proof.
  unfold resolves, ws_correct_dataset_code.
  destruct (get_code_with_match_value _ v) as [code|].
  - left. split; [by eexists | by exists code].
  - right. split; [by intros [? ?] | done].
Qed.

Lemma make_rqa_coding_plan_cases (episode : string) (scheme : CodeSchemes)
    (v coda : string) :
  (resolves v ∧ ∃ plan, make_rqa_coding_plan episode scheme v coda = Ok plan)
  ∨ (¬ resolves v
     ∧ make_rqa_coding_plan episode scheme v coda = Raise (MissingMatchValue v)).
Proof.
  unfold make_rqa_coding_plan.
  destruct (ws_correct_dataset_code_cases v) as [[Hv [code ->]] | [Hv ->]].
  - left. split; [done|]. by eexists.
  - by right.
Qed.

(** Run the next call of the RQA catalog: it returns a plan, or the goal
    is settled by the match value it misses. *)
Ltac next_rqa_call :=
  match goal with
  | |- context [make_rqa_coding_plan ?e ?s ?v ?f] =>
      let Hv := fresh "Hv" in
      let p := fresh "p" in
      destruct (make_rqa_coding_plan_cases e s v f) as [[Hv [p ->]] | [Hv ->]];
      [ rewrite (first_unresolved_resolved v) by exact Hv; simpl mbind
      | by rewrite (first_unresolved_missing v) by exact Hv ]
  end.

(** X10. For a known variant, [get_rqa_coding_plans] returns plans exactly
    when the WS scheme has every match value of the variant; otherwise it
    raises for the first match value, in the order of the episodes, that
    the scheme misses, and returns no plan of the episodes before. *)
Theorem get_rqa_coding_plans_fail_fast (pipeline_name : string) :
  pipeline_name = "SSF-DCF" ∨ pipeline_name = "SSF-SLD" →
  match first_unresolved (rqa_match_values pipeline_name) with
  | Some v => get_rqa_coding_plans pipeline_name = Raise (MissingMatchValue v)
  | None => ∃ plans, get_rqa_coding_plans pipeline_name = Ok plans
  end.
Proof.
  intros [-> | ->]; unfold rqa_match_values, get_rqa_coding_plans, py_assert.
  - rewrite !decide_True by done.
    do 4 next_rqa_call. by eexists.
  - rewrite !(decide_False (P := "SSF-SLD" = "SSF-DCF")) by done.
    rewrite !decide_True by done. simpl mbind.
    do 6 next_rqa_call. by eexists.
Qed.

(** Run the next lookup of the demographics catalog. *)
Ltac next_demog_lookup :=
  match goal with
  | |- context [ws_correct_dataset_code ?v] =>
      let Hv := fresh "Hv" in
      let code := fresh "code" in
      destruct (ws_correct_dataset_code_cases v) as [[Hv [code ->]] | [Hv ->]];
      [ rewrite (first_unresolved_resolved v) by exact Hv; simpl mbind
      | by rewrite (first_unresolved_missing v) by exact Hv ]
  end.

(** X11. [get_demog_coding_plans] returns plans exactly when the WS scheme
    has the five match values of the demographic plans; otherwise it raises
    for the first of gender, age, recently displaced, hh language and
    location that the scheme misses. *)
Theorem get_demog_coding_plans_fail_fast (pipeline_name : string) :
  match first_unresolved demog_match_values with
  | Some v => get_demog_coding_plans pipeline_name = Raise (MissingMatchValue v)
  | None => ∃ plans, get_demog_coding_plans pipeline_name = Ok plans
  end.
Proof.
  unfold demog_match_values, get_demog_coding_plans.
  do 5 next_demog_lookup. by eexists.
Qed.

(** What [make_rqa_coding_plan] puts in the plan besides the names. *)
Lemma make_rqa_coding_plan_shape (episode : string) (scheme : CodeSchemes)
    (v coda : string) (plan : CodingPlan) :
  make_rqa_coding_plan episode scheme v coda = Ok plan →
  ws_code_of plan v
  ∧ raw_field_fold_strategy plan = concatenate
  ∧ coda_filename plan = coda +:+ ".json"
  ∧ ∃ c, coding_configurations plan = [c]
         ∧ coding_mode c = MULTIPLE ∧ code_scheme c = scheme
         ∧ fold_strategy c = list_of_labels scheme ∧ cleaner c = None.
Proof.
  unfold make_rqa_coding_plan, ws_correct_dataset_code, ws_code_of.
  destruct (get_code_with_match_value _ v) as [code|] eqn:Hcode; [|done].
  simpl. intros [= <-]. simpl. repeat split; try done. by eexists.
Qed.

(** X12. In every plan of the catalogs the fold strategies go with the
    modes. A plan of the RQA catalog has one configuration, in [MULTIPLE]
    mode, without a cleaner, that merges the labels of its own scheme, and
    concatenates the raw messages; every configuration of a demographic
    plan is in [SINGLE] mode and asserts that the labels agree, and the
    plan asserts that the raw values are equal. *)
Theorem catalog_fold_strategies_fit (pipeline_name : string) (plans : list CodingPlan) :
  (get_rqa_coding_plans pipeline_name = Ok plans →
   Forall (λ plan, raw_field_fold_strategy plan = concatenate
                   ∧ ∃ c, coding_configurations plan = [c]
                          ∧ coding_mode c = MULTIPLE ∧ cleaner c = None
                          ∧ fold_strategy_fits c) plans)
  ∧ (get_demog_coding_plans pipeline_name = Ok plans →
     Forall (λ plan, raw_field_fold_strategy plan = assert_equal
                     ∧ Forall (λ c, coding_mode c = SINGLE ∧ fold_strategy_fits c)
                              (coding_configurations plan)) plans).
Proof.
  split; intros Hplans.
  - assert (∀ e s v f plan, make_rqa_coding_plan e s v f = Ok plan →
      raw_field_fold_strategy plan = concatenate
      ∧ ∃ c, coding_configurations plan = [c]
             ∧ coding_mode c = MULTIPLE ∧ cleaner c = None
             ∧ fold_strategy_fits c) as Hshape.
    { intros e s v f plan (_ & Hraw & _ & c & Hc & Hmode & Hscheme & Hfold & Hclean)
        %make_rqa_coding_plan_shape.
      split; [done|]. exists c. repeat split; try done.
      unfold fold_strategy_fits. by rewrite Hmode, Hfold, Hscheme. }
    unfold get_rqa_coding_plans in Hplans. case_decide.
    + do 4 inv_bind Hplans. injection Hplans as <-.
      repeat constructor; eapply Hshape; eauto.
    + do 7 inv_bind Hplans. injection Hplans as <-.
      repeat constructor; eapply Hshape; eauto.
  - unfold get_demog_coding_plans in Hplans.
    do 5 inv_bind Hplans. injection Hplans as <-.
    repeat constructor.
Qed.

(** X13. The plans of the two catalogs of a pipeline can be used together:
    no coded field, no analysis key, no raw field and no Coda file name
    is used twice over all the plans of a variant. *)
Theorem catalog_names_distinct (pipeline_name : string) (rqa demog : list CodingPlan) :
  get_rqa_coding_plans pipeline_name = Ok rqa →
  get_demog_coding_plans pipeline_name = Ok demog →
  NoDup (concat (coded_fields <$> (rqa ++ demog)%list))
  ∧ NoDup (concat (analysis_file_keys <$> (rqa ++ demog)%list))
  ∧ NoDup (raw_field <$> (rqa ++ demog)%list)
  ∧ NoDup (coda_filename <$> (rqa ++ demog)%list).
Proof.
  intros Hrqa Hdemog.
  unfold get_demog_coding_plans in Hdemog.
  do 5 inv_bind Hdemog. injection Hdemog as <-.
  unfold get_rqa_coding_plans in Hrqa. case_decide.
  - do 4 inv_bind Hrqa. injection Hrqa as <-.
    repeat match goal with
    | Hplan : make_rqa_coding_plan _ _ _ _ = Ok _ |- _ =>
        unfold make_rqa_coding_plan in Hplan; inv_bind Hplan; injection Hplan as <-
    end.
    repeat split; apply (bool_decide_unpack _); vm_compute; exact I.
  - do 7 inv_bind Hrqa. injection Hrqa as <-.
    repeat match goal with
    | Hplan : make_rqa_coding_plan _ _ _ _ = Ok _ |- _ =>
        unfold make_rqa_coding_plan in Hplan; inv_bind Hplan; injection Hplan as <-
    end.
    repeat split; apply (bool_decide_unpack _); vm_compute; exact I.
Qed.

Lemma ws_correct_dataset_code_Ok (v : string) (code : Code) :
  ws_correct_dataset_code v = Ok code →
  get_code_with_match_value WS_CORRECT_DATASET_SCHEME v = Some code.
Proof.
  unfold ws_correct_dataset_code.
  destruct (get_code_with_match_value _ v); [by intros [= ->] | done].
Qed.

(** X14. Each plan of the catalogs carries, as its [ws_code], the code the
    WS scheme has for the match value of the plan: the plans and the match
    values of the variant go together in order. *)
Theorem catalog_ws_codes (pipeline_name : string) (plans : list CodingPlan) :
  (get_rqa_coding_plans pipeline_name = Ok plans →
   Forall2 ws_code_of plans (rqa_match_values pipeline_name))
  ∧ (get_demog_coding_plans pipeline_name = Ok plans →
     Forall2 ws_code_of plans demog_match_values).
Proof.
  split; intros Hplans.
  - unfold get_rqa_coding_plans, rqa_match_values in *. case_decide.
    + do 4 inv_bind Hplans. injection Hplans as <-.
      repeat constructor; eapply make_rqa_coding_plan_shape; eauto.
    + do 7 inv_bind Hplans. unfold py_assert in Ha. case_decide; [|done].
      injection Hplans as <-.
      repeat constructor; eapply make_rqa_coding_plan_shape; eauto.
  - unfold get_demog_coding_plans, demog_match_values in *.
    do 5 inv_bind Hplans. injection Hplans as <-.
    repeat constructor; unfold ws_code_of; simpl;
      by apply ws_correct_dataset_code_Ok.
Qed.

Lemma replace_from_absent (old new s : string) :
  contains old s = false → PyStr.replace_from old new 0 s = s.
Proof.
  induction s as [|c s IH]; [done|].
  cbn [contains PyStr.replace_from].
  intros [Hstart Hrest]%orb_false_iff. rewrite Hstart. by rewrite IH.
Qed.

Lemma replace_from_skip (old new a s : string) :
  PyStr.replace_from old new (String.length a) (a +:+ s)
  = PyStr.replace_from old new 0 s.
Proof. induction a as [|c a IH]; [done|]. exact IH. Qed.

Lemma startswith_app (old s : string) : PyStr.startswith old (old +:+ s) = true.
Proof.
  induction old as [|c old IH]; [done|].
  change (String c old +:+ s) with (String c (old +:+ s)).
  cbn [PyStr.startswith]. by rewrite decide_True.
Qed.

(** [replace] where [old] is not in the string, and where it is in front. *)
Lemma replace_absent (old new s : string) :
  old ≠ "" → contains old s = false → PyStr.replace s old new = s.
Proof.
  intros Hold Habsent. unfold PyStr.replace.
  destruct old; [done|]. by apply replace_from_absent.
Qed.

Lemma replace_prefix (old new s : string) :
  old ≠ "" →
  PyStr.replace (old +:+ s) old new = new +:+ PyStr.replace s old new.
Proof.
  intros Hold. unfold PyStr.replace. destruct old as [|c old]; [done|].
  change (String c old +:+ s) with (String c (old +:+ s)).
  cbn [PyStr.replace_from].
  change (String c (old +:+ s)) with (String c old +:+ s).
  rewrite startswith_app. f_equal.
  cbn [String.length]. rewrite Nat.sub_1_r. cbn [Nat.pred].
  apply replace_from_skip.
Qed.

(** X15. The [dataset_name] of a plan made by [make_rqa_coding_plan] is
    the episode name with every [rqa_] taken out: the name itself when
    [rqa_] is not in it, and the rest of the name when it begins with
    [rqa_] and [rqa_] is not in the rest, which is the name without its
    prefix. *)
Theorem make_rqa_coding_plan_dataset_name (episode : string) (scheme : CodeSchemes)
    (v coda : string) (plan : CodingPlan) :
  make_rqa_coding_plan episode scheme v coda = Ok plan →
  (contains "rqa_" episode = false → dataset_name plan = Some episode)
  ∧ (∀ rest, episode = "rqa_" +:+ rest → contains "rqa_" rest = false →
       dataset_name plan = Some rest
       ∧ dataset_name plan = PyStr.remove_prefix "rqa_" episode).
Proof.
  intros (Hname & _)%make_rqa_coding_plan_fields. rewrite Hname. split.
  - intros Habsent. by rewrite replace_absent.
  - intros rest -> Habsent.
    rewrite replace_prefix, replace_absent by done. done.
Qed.

(** Reading [str n] gives [n] back. *)
Lemma parse_decimal_str (n : Z) : parse_decimal (PyStr.str n) = Some n.
Proof.
  unfold parse_decimal, PyStr.str. rewrite NilZero.isi.
  - simpl. by rewrite DecimalZ.of_to.
  - destruct n; [done | | done]. simpl. intros [= Hnil].
    by apply DecimalPos.Unsigned.to_uint_nonnil in Hnil.
  - destruct n; [done | done |]. simpl. intros [= Hnil].
    by apply DecimalPos.Unsigned.to_uint_nonnil in Hnil.
Qed.

Lemma str_two_digits (n : Z) :
  (10 ≤ n < 100)%Z → String.length (PyStr.str n) = 2.
Proof.
  intros Hrange.
  assert (Forall (λ k, String.length (PyStr.str k) = 2) (seqZ 10 90)) as Hall
    by (apply (bool_decide_unpack _); vm_compute; exact I).
  apply (proj1 (Forall_forall _ _) Hall), elem_of_seqZ. lia.
Qed.

(** X16. The code [clean_age_with_range_filter] gives reads back as the
    age: it is the numeral of [n] exactly when the age cleaner gives an
    integer [n] in [10, 100), so a code other than [NOT_CODED] has two
    characters, and two texts with the same such code have the same age. *)
Theorem clean_age_with_range_filter_decodes (text : string) :
  (∀ n, parse_decimal (clean_age_with_range_filter text) = Some n ↔
        swahili_clean_age text = PyInt n ∧ (10 ≤ n < 100)%Z)
  ∧ (clean_age_with_range_filter text ≠ Codes.NOT_CODED →
     String.length (clean_age_with_range_filter text) = 2)
  ∧ (∀ text',
       clean_age_with_range_filter text = clean_age_with_range_filter text' →
       clean_age_with_range_filter text ≠ Codes.NOT_CODED →
       ∃ n, swahili_clean_age text = PyInt n ∧ swahili_clean_age text' = PyInt n).
Proof.
  assert (∀ t n, parse_decimal (clean_age_with_range_filter t) = Some n ↔
                 swahili_clean_age t = PyInt n ∧ (10 ≤ n < 100)%Z) as Hdecode.
  { intros t n. unfold clean_age_with_range_filter.
    destruct (swahili_clean_age t) as [m|s0].
    - case_decide as Hrange.
      + rewrite parse_decimal_str. split.
        * by intros [= ->].
        * by intros [[= ->] _].
      + split; [done|]. intros [[= ->] ?]. done.
    - split; [done | by intros [? _]]. }
  assert (∀ t, clean_age_with_range_filter t ≠ Codes.NOT_CODED →
               ∃ n, parse_decimal (clean_age_with_range_filter t) = Some n
                    ∧ String.length (clean_age_with_range_filter t) = 2) as Hcoded.
  { intros t. unfold clean_age_with_range_filter.
    destruct (swahili_clean_age t) as [m|s0]; [|done].
    case_decide as Hrange; [|done]. intros _. exists m.
    by rewrite parse_decimal_str, str_two_digits. }
  split; [apply Hdecode|]. split.
  - intros Hne. by destruct (Hcoded text Hne) as (n & _ & Hlen).
  - intros text' Hsame Hne. destruct (Hcoded text Hne) as (n & Hn & _).
    exists n. split.
    + by apply Hdecode in Hn as [? _].
    + rewrite Hsame in Hn. by apply Hdecode in Hn as [? _].
Qed.

End catalog_further_properties.

(** ** The further properties on concrete inputs *)

Section further_examples.
Import Exporter.


Lemma search_files_sample :
  search_files SampleRun.files = Ok (reference_search SampleRun.files).
Proof. by vm_compute. Qed.

Lemma main_sample :
  main (Sample.table SampleRun.known) SampleRun.files
  = Ok (reference_export SampleRun.lut SampleRun.files).
Proof. by vm_compute. Qed.

Lemma search_files_uuids_sample :
  length (reference_search SampleRun.files).2 = 2
  ∧ "avf-phone-uuid-2" ∈ uuids (reference_search SampleRun.files).1.
Proof.
  destruct (search_files_uuids SampleRun.files (reference_search SampleRun.files).1
              (reference_search SampleRun.files).2 search_files_sample)
    as [Hlen Huuids].
  split; [exact Hlen|]. apply Huuids.
  exists [Sample.galmudug_row; Sample.other_row], Sample.other_row, "south west state".
  split; [apply elem_of_cons; by left|].
  split; [apply elem_of_cons; right; apply elem_of_cons; by left|].
  repeat split; by vm_compute.
Defined.


Lemma main_depends_on_rows_only_sample :
  ∃ out',
    main (Sample.table SampleRun.known) SampleRun.shuffled = Ok out'
    ∧ phone_number_rows out' ≡ₚ [["+252615000002"; ""]].
Proof.
  destruct (main_depends_on_rows_only (Sample.table SampleRun.known)
              SampleRun.files SampleRun.shuffled
              (reference_export SampleRun.lut SampleRun.files))
    as (out' & Hmain & _ & _ & _ & Hcontacts).
  - intros row. unfold SampleRun.files, SampleRun.shuffled. simpl.
    rewrite !elem_of_cons, !elem_of_nil. tauto.
  - exact main_sample.
  - exists out'. split; [exact Hmain|].
    etrans; [exact Hcontacts|]. vm_compute. reflexivity.
Defined.

Lemma search_files_twice_sample :
  ∃ logged',
    search_files (SampleRun.files ++ SampleRun.files)%list
    = Ok ((reference_search SampleRun.files).1,
          ((reference_search SampleRun.files).2 ++ logged')%list)
    ∧ length logged' = 2.
Proof.
  destruct (search_files_twice SampleRun.files (reference_search SampleRun.files).1
              (reference_search SampleRun.files).2 search_files_sample)
    as (logged' & Hsearch & Hlen & _).
  exists logged'. split; [exact Hsearch | exact Hlen].
Defined.

Lemma search_files_reports_bounded_sample :
  Forall (λ r, (found r ≤ running_total r
                ∧ running_total r
                  ≤ size (uuids (reference_search SampleRun.files).1))%nat)
         (reference_search SampleRun.files).2
  ∧ StronglySorted (λ r1 r2, (running_total r1 ≤ running_total r2)%nat)
                   (reference_search SampleRun.files).2.
Proof.
  exact (search_files_reports_bounded SampleRun.files _ _ search_files_sample).
Defined.

Lemma search_counters_match_sets_sample :
  ∃ st,
    search_data (reference_search [[Sample.galmudug_row; Sample.other_row]]).1
                [Sample.south_west_row; Sample.no_uid_row] = Ok st
    ∧ total (location_counts st.1) = size (uuids st.1)
    ∧ location_counts st.1 !! "galmudug" = Some 1
    ∧ file_location_counts st.2 !! "south west state" = Some 1.
Proof.
  eexists. split; [by vm_compute|].
  destruct (search_counters_match_sets
              [[Sample.galmudug_row; Sample.other_row]]
              [Sample.south_west_row; Sample.no_uid_row]
              (reference_search [[Sample.galmudug_row; Sample.other_row]]).1
              (reference_search [[Sample.galmudug_row; Sample.other_row]]).2
              _ ltac:(by vm_compute) ltac:(by vm_compute))
    as (Hrun & _ & _ & _ & _ & Hcounts).
  split; [exact Hrun|].
  destruct (Hcounts "galmudug" ltac:(by vm_compute)) as [Hgalmudug _].
  destruct (Hcounts "south west state" ltac:(by vm_compute)) as [_ Hsouth].
  split.
  - etrans; [exact Hgalmudug|]. by vm_compute.
  - etrans; [exact Hsouth|]. by vm_compute.
Defined.

Lemma main_contacts_wellformed_sample :
  NoDup (phone_number_rows (reference_export SampleRun.lut SampleRun.files))
  ∧ length (phone_number_rows (reference_export SampleRun.lut SampleRun.files)) = 1.
Proof.
  destruct (main_contacts_wellformed (Sample.table SampleRun.known) SampleRun.files
              (reference_export SampleRun.lut SampleRun.files) main_sample)
    as (_ & Hnodup & Hlen & _).
  split; [exact Hnodup|]. rewrite Hlen. by vm_compute.
Defined.

Lemma get_rqa_coding_plans_fail_fast_sample :
  @get_rqa_coding_plans SampleGaps.library "SSF-DCF"
  = Raise (MissingMatchValue "ssf dcf s01e03").
Proof.
  exact (@get_rqa_coding_plans_fail_fast SampleGaps.library "SSF-DCF"
           (or_introl eq_refl)).
Defined.

Lemma catalog_names_distinct_sample :
  ∃ rqa demog,
    @get_rqa_coding_plans Sample.library "SSF-SLD" = Ok rqa
    ∧ @get_demog_coding_plans Sample.library "SSF-SLD" = Ok demog
    ∧ NoDup (concat (@coded_fields Sample.library <$> (rqa ++ demog)%list))
    ∧ NoDup (@raw_field Sample.library <$> (rqa ++ demog)%list).
Proof.
  eexists. eexists. split; [reflexivity|]. split; [reflexivity|].
  destruct (@catalog_names_distinct Sample.library "SSF-SLD" _ _ eq_refl eq_refl)
    as (Hcoded & _ & Hraw & _).
  split; [exact Hcoded | exact Hraw].
Defined.

Lemma make_rqa_coding_plan_dataset_name_sample :
  ∃ plan,
    @make_rqa_coding_plan Sample.library "rqa_sld_s01_closeout" SLD_S01_CLOSEOUT
      "ssf sld s01 closeout" "SSF_SLD_s01_closeout" = Ok plan
    ∧ dataset_name plan = Some "sld_s01_closeout".
Proof.
  eexists. split; [reflexivity|].
  apply (@make_rqa_coding_plan_dataset_name Sample.library "rqa_sld_s01_closeout"
           SLD_S01_CLOSEOUT "ssf sld s01 closeout" "SSF_SLD_s01_closeout" _ eq_refl
           ) with "sld_s01_closeout"; reflexivity.
Defined.

End further_examples.
